(** * GT60 GPS server: packet parser, command decoders and session loop

    A shallow embedding of the GT60 tracker server (the Express/net server
    file holding [GT60PacketParser] and the TCP ['data'] handler) and of the
    device simulator's [sendPacket] (simulator.js).

    - [JS]      : the JavaScript runtime operations the program calls
                  (strings as sequences of UTF-16 code units, array and string
                  slicing, [parseFloat], [parseInt], IEEE-754 doubles).
    - [Server]  : [COMMAND_TYPES], [GT60PacketParser] and the ['data'] handler.
    - [Simulator] : [calculateChecksum] and [sendPacket] of the simulator.

    Numbers are binary64 values ([spec_float] with precision 53 and maximal
    exponent 1024); the clock ([new Date().toISOString()]) is an explicit
    argument. *)

From Stdlib Require Import String Ascii ZArith List Bool Lia.
From Corelib Require Import SpecFloat.
From Stdlib Require Import Permutation.
Import ListNotations.
Open Scope Z_scope.

(* ================================================================= *)
(** ** The JavaScript runtime *)

Module JS.

(** A string is its sequence of UTF-16 code units ([charCodeAt] reads one). *)
Definition jsstring := list Z.

(** An ASCII literal of the source. *)
Definition lit (s : string) : jsstring :=
  map (fun a => Z.of_N (N_of_ascii a)) (list_ascii_of_string s).
Arguments lit s%_string.

(** [a === b] on strings. *)
Fixpoint str_eqb (a b : jsstring) : bool :=
  match a, b with
  | [], [] => true
  | x :: a', y :: b' => (x =? y) && str_eqb a' b'
  | _, _ => false
  end.

(** [l[i]]: [None] is [undefined]. *)
Definition idx {A} (l : list A) (i : nat) : option A := nth_error l i.

(** ToBoolean on a string or [undefined]: the empty string and [undefined]
    are falsy. *)
Definition truthy (v : option jsstring) : bool :=
  match v with
  | Some (_ :: _) => true
  | _ => false
  end.

(** [v || d] with [d] a string. *)
Definition or_default (v : option jsstring) (d : jsstring) : jsstring :=
  match v with
  | Some (c :: s) => c :: s
  | _ => d
  end.

(** ToString of a string or [undefined]. *)
Definition ToString (v : option jsstring) : jsstring :=
  match v with
  | Some s => s
  | None => lit "undefined"
  end.

(** WhiteSpace and LineTerminator code units, as [trim], [parseFloat] and
    [parseInt] strip them: TAB LF VT FF CR SP NBSP, U+1680, U+2000..U+200A,
    U+2028, U+2029, U+202F, U+205F, U+3000, U+FEFF. *)
Definition isWhiteSpace (c : Z) : bool :=
  ((9 <=? c) && (c <=? 13)) || (c =? 32) || (c =? 160) || (c =? 5760)
  || ((8192 <=? c) && (c <=? 8202)) || (c =? 8232) || (c =? 8233)
  || (c =? 8239) || (c =? 8287) || (c =? 12288) || (c =? 65279).

(** A string made of white space only. *)
Definition blank (w : jsstring) : Prop := forallb isWhiteSpace w = true.

Fixpoint trimStart (s : jsstring) : jsstring :=
  match s with
  | c :: t => if isWhiteSpace c then trimStart t else s
  | [] => []
  end.

Definition trimEnd (s : jsstring) : jsstring := rev (trimStart (rev s)).

Definition trim (s : jsstring) : jsstring := trimEnd (trimStart s).

Fixpoint startsWith (s p : jsstring) : bool :=
  match p, s with
  | [], _ => true
  | c :: p', d :: s' => (c =? d) && startsWith s' p'
  | _ :: _, [] => false
  end.

Definition endsWith (s p : jsstring) : bool := startsWith (rev s) (rev p).

(** The index normalisation of [slice] (strings and arrays alike): a
    negative index counts from the end, and both ends are clamped. *)
Definition relIndex (len i : Z) : Z :=
  if i <? 0 then Z.max (len + i) 0 else Z.min i len.

(** [l.slice(start, end)]. *)
Definition slice {A} (l : list A) (start end_ : Z) : list A :=
  let len := Z.of_nat (length l) in
  let from := relIndex len start in
  let to := relIndex len end_ in
  firstn (Z.to_nat (Z.max (to - from) 0)) (skipn (Z.to_nat from) l).

(** [l.slice(start)]. *)
Definition slice_from {A} (l : list A) (start : Z) : list A :=
  slice l start (Z.of_nat (length l)).

(** [s.substring(start, end)]: both ends clamped to [0, length], swapped
    when out of order. *)
Definition substring (s : jsstring) (start end_ : Z) : jsstring :=
  let len := Z.of_nat (length s) in
  let a := Z.min (Z.max start 0) len in
  let b := Z.min (Z.max end_ 0) len in
  let from := Z.min a b in
  let to := Z.max a b in
  firstn (Z.to_nat (to - from)) (skipn (Z.to_nat from) s).

(** [s.substring(start)]. *)
Definition substring_from (s : jsstring) (start : Z) : jsstring :=
  substring s start (Z.of_nat (length s)).

(** [s.indexOf(c)] for a one-unit search string: first position or [-1]. *)
Fixpoint indexOf (s : jsstring) (c : Z) : Z :=
  match s with
  | [] => -1
  | d :: t =>
      if d =? c then 0
      else let r := indexOf t c in if r <? 0 then -1 else r + 1
  end.

(** [s.lastIndexOf(c)] for a one-unit search string. *)
Fixpoint lastIndexOf (s : jsstring) (c : Z) : Z :=
  match s with
  | [] => -1
  | d :: t =>
      let r := lastIndexOf t c in
      if 0 <=? r then r + 1 else if d =? c then 0 else -1
  end.

(** [s.split(sep)] for a one-unit separator; [''.split(',')] is [['']]. *)
Fixpoint split (s : jsstring) (sep : Z) : list jsstring :=
  match s with
  | [] => [[]]
  | c :: t =>
      if c =? sep then [] :: split t sep
      else match split t sep with
           | p :: ps => (c :: p) :: ps
           | [] => [[c]]
           end
  end.

(** [l.join(sep)]. *)
Fixpoint join (sep : jsstring) (l : list jsstring) : jsstring :=
  match l with
  | [] => []
  | [x] => x
  | x :: rest => x ++ sep ++ join sep rest
  end.

(** ToInt32, applied to the operands of [&]. *)
Definition ToInt32 (x : Z) : Z :=
  let m := x mod 4294967296 in
  if 2147483648 <=? m then m - 4294967296 else m.

(** [a & b]. *)
Definition bitand (a b : Z) : Z := Z.land (ToInt32 a) (ToInt32 b).

(** The digit characters of [Number.prototype.toString(16)]: lower case. *)
Definition hexDigit (d : Z) : Z := if d <? 10 then 48 + d else 87 + d.

Fixpoint toRadix16 (fuel : nat) (n : Z) : jsstring :=
  match fuel with
  | O => []
  | S f =>
      if n <? 16 then [hexDigit n]
      else toRadix16 f (n / 16) ++ [hexDigit (n mod 16)]
  end.

(** [n.toString(16)] for an integer [n]. *)
Definition toString16 (n : Z) : jsstring :=
  if n <? 0 then 45 :: toRadix16 (S (Z.to_nat (Z.log2 (- n)))) (- n)
  else toRadix16 (S (Z.to_nat (Z.log2 n))) n.

(** [s.toUpperCase()] on the letters [a]..[z]; other code units are kept
    (the program applies it to the output of [toString(16)] only). *)
Definition toUpperCase (s : jsstring) : jsstring :=
  map (fun c => if (97 <=? c) && (c <=? 122) then c - 32 else c) s.

(** [s.padStart(n, c)] for a one-unit filler. *)
Definition padStart (s : jsstring) (n : nat) (c : Z) : jsstring :=
  repeat c (n - length s) ++ s.

(** *** Numbers *)

Definition number := spec_float.
Definition prec : Z := 53.
Definition emax : Z := 1024.

Definition NaN : number := S754_nan.
Definition zero : number := S754_zero false.

Definition add : number -> number -> number := SFadd prec emax.
Definition div : number -> number -> number := SFdiv prec emax.
Definition neg : number -> number := SFopp.
Definition ltb : number -> number -> bool := SFltb.

(** The double nearest to the integer [n]. *)
Definition of_Z (n : Z) : number := binary_normalize prec emax n 0 false.

(** The double nearest to [p / q] (round to nearest, ties to even). *)
Definition of_ratio (sign : bool) (p q : Z) : number :=
  let '(mz, ez, lz) := SFdiv_core_binary prec emax p 0 q 0 in
  binary_round_aux prec emax sign mz ez lz.

(** The double nearest to [(-1)^sign * d * 10^e], for [0 <= d]. *)
Definition of_decimal (sign : bool) (d e : Z) : number :=
  if d =? 0 then S754_zero sign
  else if 0 <=? e then
    binary_normalize prec emax ((if sign then - d else d) * 10 ^ e) 0 false
  else of_ratio sign d (10 ^ (- e)).

(** ToBoolean on a number: [NaN], [+0] and [-0] are falsy. *)
Definition truthy_number (x : number) : bool :=
  match x with
  | S754_nan | S754_zero _ => false
  | _ => true
  end.

(** [x || 0]. *)
Definition or_zero (x : number) : number :=
  if truthy_number x then x else zero.

Definition isDigit (c : Z) : bool := (48 <=? c) && (c <=? 57).

(** The longest prefix of decimal digits, and what follows it. *)
Fixpoint takeDigits (s : jsstring) : jsstring * jsstring :=
  match s with
  | c :: t =>
      if isDigit c then let '(ds, r) := takeDigits t in (c :: ds, r)
      else ([], s)
  | [] => ([], [])
  end.

Definition digitsValue (ds : jsstring) : Z :=
  fold_left (fun a c => 10 * a + (c - 48)) ds 0.

(** An optional leading sign: [true] for [-]. *)
Definition takeSign (s : jsstring) : bool * jsstring :=
  match s with
  | 43 :: t => (false, t)
  | 45 :: t => (true, t)
  | _ => (false, s)
  end.

(** The value of an ExponentPart at the head of [s], [0] when there is
    none ([e] or [E], an optional sign, at least one digit). *)
Definition exponentPart (s : jsstring) : Z :=
  match s with
  | c :: t =>
      if (c =? 101) || (c =? 69) then
        let '(sg, t') := takeSign t in
        match fst (takeDigits t') with
        | [] => 0
        | ds => if sg then - digitsValue ds else digitsValue ds
        end
      else 0
  | [] => 0
  end.

(** [parseFloat(s)]: leading white space is skipped, the longest prefix
    that is a StrDecimalLiteral is read and rounded to the nearest double;
    [NaN] when there is no such prefix. *)
Definition parseFloat (input : jsstring) : number :=
  let '(sg, s1) := takeSign (trimStart input) in
  if startsWith s1 (lit "Infinity") then S754_infinity sg
  else
    let '(ip, s2) := takeDigits s1 in
    let '(fp, s3) := match s2 with
                     | 46 :: t => takeDigits t
                     | _ => ([], s2)
                     end in
    match ip ++ fp with
    | [] => NaN
    | ds => of_decimal sg (digitsValue ds)
              (exponentPart s3 - Z.of_nat (length fp))
    end.

Definition hexValue (c : Z) : option Z :=
  if isDigit c then Some (c - 48)
  else if (97 <=? c) && (c <=? 102) then Some (c - 87)
  else if (65 <=? c) && (c <=? 70) then Some (c - 55)
  else None.

(** The longest prefix of hexadecimal digits, as their values. *)
Fixpoint takeHex (s : jsstring) : list Z :=
  match s with
  | c :: t => match hexValue c with
              | Some v => v :: takeHex t
              | None => []
              end
  | [] => []
  end.

(** [parseInt(s)] with no radix: radix 16 after a [0x] or [0X] prefix,
    radix 10 otherwise; [NaN] when no digit follows. *)
Definition parseInt (input : jsstring) : number :=
  let '(sg, s1) := takeSign (trimStart input) in
  match s1 with
  | 48 :: x :: t =>
      if (x =? 120) || (x =? 88) then
        match takeHex t with
        | [] => NaN
        | hs => of_decimal sg (fold_left (fun a v => 16 * a + v) hs 0) 0
        end
      else of_decimal sg (digitsValue (fst (takeDigits s1))) 0
  | _ =>
      match fst (takeDigits s1) with
      | [] => NaN
      | ds => of_decimal sg (digitsValue ds) 0
      end
  end.

(** The own property names of [Object.prototype], which every object
    literal inherits. *)
Definition Object_prototype_keys : list jsstring :=
  [ lit "constructor"; lit "__defineGetter__"; lit "__defineSetter__";
    lit "hasOwnProperty"; lit "__lookupGetter__"; lit "__lookupSetter__";
    lit "isPrototypeOf"; lit "propertyIsEnumerable"; lit "toString";
    lit "valueOf"; lit "__proto__"; lit "toLocaleString" ].

(** The value of a property read on an object literal whose own properties
    are strings: an own string, or a function or object found on the
    prototype chain. *)
Inductive propval :=
  | VString (s : jsstring)
  | VInherited (name : jsstring).

Fixpoint assoc (key : jsstring) (o : list (jsstring * jsstring)) : option jsstring :=
  match o with
  | [] => None
  | (k, v) :: o' => if str_eqb k key then Some v else assoc key o'
  end.

(** [o[key]] on an object literal [o]: [None] is [undefined]. *)
Definition get (o : list (jsstring * jsstring)) (key : jsstring) : option propval :=
  match assoc key o with
  | Some v => Some (VString v)
  | None =>
      if existsb (str_eqb key) Object_prototype_keys
      then Some (VInherited key) else None
  end.

(** ToBoolean on a property value: functions and objects are truthy. *)
Definition truthy_prop (v : option propval) : bool :=
  match v with
  | Some (VString (_ :: _)) => true
  | Some (VInherited _) => true
  | _ => false
  end.

End JS.

(* ================================================================= *)
(** ** The server: [COMMAND_TYPES], [GT60PacketParser], the TCP handler *)

Module Server.
Import JS.

(** GT60 protocol constants. *)
Definition PROTOCOL_START : jsstring := lit "(".
Definition PROTOCOL_END : jsstring := lit ")".

(** GT60 command types: the object literal, as its own properties. *)
Definition COMMAND_TYPES : list (jsstring * jsstring) :=
  [ (lit "BP00", lit "Heartbeat");
    (lit "BP01", lit "Login");
    (lit "BP02", lit "Position Report");
    (lit "BP03", lit "Alarm Report");
    (lit "BP04", lit "Status Report");
    (lit "BP05", lit "String Info");
    (lit "BP10", lit "GPS Info");
    (lit "BP11", lit "LBS Info");
    (lit "BP12", lit "WiFi Info");
    (lit "BP13", lit "Address Info");
    (lit "BP15", lit "Time Info");
    (lit "BP20", lit "Step Count");
    (lit "BP21", lit "Sleep Info");
    (lit "BP22", lit "Heart Rate");
    (lit "BP23", lit "Blood Pressure");
    (lit "BP24", lit "Temperature");
    (lit "BP25", lit "Blood Oxygen");
    (lit "BR00", lit "Response to command");
    (lit "BR01", lit "Configuration response") ].

(** What the program prints on the console and writes on the socket. *)
Inductive event :=
  | ConsoleLog (label value : jsstring)
  | ConsoleWarn (message : jsstring)
  | ConsoleError (label message : jsstring)
  | SocketWrite (bytes : jsstring).

(** The object [parsePacket] returns when all checks pass. *)
Record packet := {
  imei : jsstring;
  command : jsstring;
  commandName : propval;
  data : list jsstring;
  checksum : jsstring;
  calculatedChecksum : jsstring;
  isValid : bool;
  timestamp : jsstring
}.

(** The object the [catch] block of [parsePacket] returns. *)
Record parse_failure := {
  error : jsstring;
  rawData : jsstring;
  failure_timestamp : jsstring
}.

(** The messages of the three [throw new Error(...)] of [parsePacket]. *)
Definition MissingDelimiters : jsstring :=
  lit "Invalid packet format - missing start/end markers".
Definition InsufficientFields : jsstring :=
  lit "Invalid packet format - insufficient data".
Definition InvalidIMEI : jsstring := lit "Invalid IMEI format".

(** The regular expression [/^\d{15}$/]. *)
Definition imei_regex (s : jsstring) : bool :=
  (length s =? 15)%nat && forallb isDigit s.

(** [calculateChecksum(data)]: the loop over [charCodeAt], then
    [(sum & 0xFFFF).toString(16).toUpperCase().padStart(4, '0')]. The sum
    of the code units of a string stays far below 2^53, so the additions
    on doubles are exact and [sum] is an integer. *)
Definition calculateChecksum (data : jsstring) : jsstring :=
  let sum := fold_left (fun sum c => sum + c) data 0 in
  padStart (toUpperCase (toString16 (bitand sum 65535))) 4 48.

(** The [catch] block: logs the message and returns the failure object,
    whose [rawData] is [data.toString()], the input before [trim]. *)
Definition caught (log : list event) (message raw now : jsstring)
  : list event * (parse_failure + packet) :=
  (log ++ [ConsoleError (lit "Packet parsing error:") message],
   inl {| error := message; rawData := raw; failure_timestamp := now |}).

(** [parsePacket(data)], on the string [data.toString()]; [now] is the
    value of [new Date().toISOString()]. *)
Definition parsePacket (data now : jsstring)
  : list event * (parse_failure + packet) :=
  let packet := trim data in
  let log := [ConsoleLog (lit "Raw packet received:") packet] in
  if negb (startsWith packet PROTOCOL_START) || negb (endsWith packet PROTOCOL_END)
  then caught log MissingDelimiters data now
  else
    let content := slice packet 1 (-1) in
    let parts := split content 44 in
    if (length parts <? 3)%nat
    then caught log InsufficientFields data now
    else
      (* the three reads below are in range: parts.length >= 3 *)
      let imei := nth 0 parts [] in
      let command := nth 1 parts [] in
      let dataFields := slice parts 2 (-1) in
      let receivedChecksum := nth (length parts - 1) parts [] in
      if negb (imei_regex imei)
      then caught log InvalidIMEI data now
      else
        let log := if negb (truthy_prop (get COMMAND_TYPES command))
                   then log ++ [ConsoleWarn (lit "Unknown command type: " ++ command)]
                   else log in
        let calculatedChecksum :=
          calculateChecksum (substring content 0 (lastIndexOf content 44)) in
        (log,
         inr {| imei := imei;
                command := command;
                commandName :=
                  match get COMMAND_TYPES command with
                  | Some (VString (c :: n)) => VString (c :: n)
                  | Some (VInherited f) => VInherited f
                  | _ => VString (lit "Unknown")
                  end;
                data := dataFields;
                checksum := receivedChecksum;
                calculatedChecksum := calculatedChecksum;
                isValid := str_eqb calculatedChecksum receivedChecksum;
                timestamp := now |}).

(** The objects the command decoders return. *)
Inductive payload :=
  | LoginData (deviceType firmwareVersion protocol : jsstring)
  | PositionData (datetime : option jsstring) (gpsFix : jsstring)
      (latitude longitude speed course altitude satellites hdop : number)
  | AlarmData (alarmType : jsstring) (datetime : option jsstring)
      (location : list jsstring)
  | GPSData (satelliteCount signalStrength accuracy : number)
  | LBSData (mcc mnc lac cellId : jsstring) (signalStrength : number)
  | StepData (stepCount calories distance : number)
  | HeartRateData (heartRate : number) (measureTime : jsstring)
  | RawData (rawData : list jsstring).

(** [parseCoordinate(coord, direction)]. *)
Definition parseCoordinate (coord direction : option jsstring) : number :=
  if negb (truthy coord) || negb (truthy direction) then zero
  else
    let c := ToString coord in
    let degrees := parseFloat (substring c 0 (indexOf c 46 - 2)) in
    let minutes := parseFloat (substring_from c (indexOf c 46 - 2)) in
    let decimal := add degrees (div minutes (of_Z 60)) in
    if str_eqb (ToString direction) (lit "S") || str_eqb (ToString direction) (lit "W")
    then neg decimal
    else decimal.

Definition parseLoginData (data : list jsstring) : payload :=
  LoginData (or_default (idx data 0) (lit "Unknown"))
            (or_default (idx data 1) (lit "Unknown"))
            (or_default (idx data 2) (lit "Unknown")).

Definition parsePositionData (data : list jsstring) : payload :=
  if (length data <? 10)%nat then RawData data
  else
    PositionData
      (idx data 0)
      (if str_eqb (ToString (idx data 1)) (lit "A") then lit "Valid" else lit "Invalid")
      (parseCoordinate (idx data 2) (idx data 3))
      (parseCoordinate (idx data 4) (idx data 5))
      (or_zero (parseFloat (ToString (idx data 6))))
      (or_zero (parseFloat (ToString (idx data 7))))
      (or_zero (parseFloat (ToString (idx data 8))))
      (or_zero (parseInt (ToString (idx data 9))))
      (or_zero (parseFloat (ToString (idx data 10)))).

Definition parseAlarmData (data : list jsstring) : payload :=
  AlarmData (or_default (idx data 0) (lit "Unknown"))
            (idx data 1)
            (if (2 <? length data)%nat then slice_from data 2 else []).

Definition parseGPSData (data : list jsstring) : payload :=
  GPSData (or_zero (parseInt (ToString (idx data 0))))
          (or_zero (parseInt (ToString (idx data 1))))
          (or_zero (parseFloat (ToString (idx data 2)))).

Definition parseLBSData (data : list jsstring) : payload :=
  LBSData (or_default (idx data 0) (lit "Unknown"))
          (or_default (idx data 1) (lit "Unknown"))
          (or_default (idx data 2) (lit "Unknown"))
          (or_default (idx data 3) (lit "Unknown"))
          (or_zero (parseInt (ToString (idx data 4)))).

Definition parseStepData (data : list jsstring) : payload :=
  StepData (or_zero (parseInt (ToString (idx data 0))))
           (or_zero (parseFloat (ToString (idx data 1))))
           (or_zero (parseFloat (ToString (idx data 2)))).

(** [now] is the value of [new Date().toISOString()]. *)
Definition parseHeartRateData (data : list jsstring) (now : jsstring) : payload :=
  HeartRateData (or_zero (parseInt (ToString (idx data 0))))
                (or_default (idx data 1) now).

(** [parseCommandData(command, data)]: the [switch], whose [case] labels
    are compared with [===]. *)
Definition parseCommandData (command : jsstring) (data : list jsstring)
    (now : jsstring) : payload :=
  if str_eqb command (lit "BP01") then parseLoginData data
  else if str_eqb command (lit "BP02") then parsePositionData data
  else if str_eqb command (lit "BP03") then parseAlarmData data
  else if str_eqb command (lit "BP10") then parseGPSData data
  else if str_eqb command (lit "BP11") then parseLBSData data
  else if str_eqb command (lit "BP20") then parseStepData data
  else if str_eqb command (lit "BP22") then parseHeartRateData data now
  else RawData data.

(** The parser object: [this.buffer = ''] is set by the constructor and
    neither read nor written anywhere else. *)
Record GT60PacketParser := { buffer : jsstring }.

Definition parser : GT60PacketParser := {| buffer := [] |}.

(** What one run of the socket's ['data'] handler hands on: the result of
    [parsePacket], and the decoded command data when there is a packet. *)
Record processed := {
  parsed : parse_failure + packet;
  commandData : option payload
}.

(** The ['data'] handler of one connection, on the arrival [arrival]
    (the handler's [data], decoded by [data.toString()]): one call of [parsePacket] on the whole
    arrival, then either the error branch or the decode and the
    acknowledgment. The handler's own [console.log] lines are not
    modelled; the events are those of [parsePacket] and the socket write.
    [parsedPacket.error] is a non-empty message on a failure and absent on
    a packet, so the test [if (parsedPacket.error)] is the case analysis
    below. *)
Definition on_data (p : GT60PacketParser) (arrival now : jsstring)
  : GT60PacketParser * list event * processed :=
  let '(log, parsedPacket) := parsePacket arrival now in
  match parsedPacket with
  | inl e => (p, log, {| parsed := inl e; commandData := None |})
  | inr pk =>
      let commandData := parseCommandData (command pk) (data pk) now in
      let ackMessage := lit "(" ++ imei pk ++ lit ",BR00,OK)" in
      (p, log ++ [SocketWrite ackMessage],
       {| parsed := inr pk; commandData := Some commandData |})
  end.

(** The three components of what a run of the handler returns. *)
Definition handler_state (r : GT60PacketParser * list event * processed)
  : GT60PacketParser := fst (fst r).
Definition handler_events (r : GT60PacketParser * list event * processed)
  : list event := snd (fst r).
Definition handler_result (r : GT60PacketParser * list event * processed)
  : processed := snd r.

(** The bytes written on the socket among the events. *)
Definition writes (evs : list event) : list jsstring :=
  flat_map (fun e => match e with SocketWrite b => [b] | _ => [] end) evs.

(** The warnings among the events. *)
Definition warnings (evs : list event) : list jsstring :=
  flat_map (fun e => match e with ConsoleWarn m => [m] | _ => [] end) evs.

(** The packets handed on by a sequence of handler runs, in order. *)
Definition packets (outs : list (list event * processed)) : list packet :=
  flat_map (fun o => match parsed (snd o) with inr pk => [pk] | inl _ => [] end) outs.

(** A connection: the handler run on each arrival in turn. *)
Fixpoint session (p : GT60PacketParser) (arrivals : list (jsstring * jsstring))
  : GT60PacketParser * list (list event * processed) :=
  match arrivals with
  | [] => (p, [])
  | (arrival, now) :: rest =>
      let '(p1, evs, r) := on_data p arrival now in
      let '(p2, out) := session p1 rest in
      (p2, (evs, r) :: out)
  end.

End Server.

(* ================================================================= *)
(** ** The device simulator (simulator.js) *)

Module Simulator.
Import JS.

(** [calculateChecksum(data)], the same code as the server's. *)
Definition calculateChecksum (data : jsstring) : jsstring :=
  let sum := fold_left (fun sum c => sum + c) data 0 in
  padStart (toUpperCase (toString16 (bitand sum 65535))) 4 48.

(** [sendPacket(command, ...data)] of a simulator whose [this.imei] is
    [imei]: the packet it writes to the server. *)
Definition sendPacket (imei command : jsstring) (data : list jsstring) : jsstring :=
  let content := join (lit ",") (imei :: command :: data) in
  let checksum := calculateChecksum content in
  lit "(" ++ content ++ lit "," ++ checksum ++ lit ")".

End Simulator.

(* ================================================================= *)
(** ** The checksum as the specification words it *)

Module Spec.
Import JS.

(** An upper-case hexadecimal digit character. *)
Definition upperHex (d : Z) : Z := if d <? 10 then 48 + d else 55 + d.

Definition isUpperHex (c : Z) : Prop := 48 <= c <= 57 \/ 65 <= c <= 70.

(** [compute(text)]: the sum of the character codes, masked with
    [0xFFFF], written as four upper-case hexadecimal digits, leading
    zeros included. *)
Definition compute (text : jsstring) : jsstring :=
  let n := Z.land (fold_right Z.add 0 text) 65535 in
  [ upperHex (n / 4096); upperHex (n / 256 mod 16);
    upperHex (n / 16 mod 16); upperHex (n mod 16) ].

(** The frame of the wire format: [(] imei [,] command ([,] field)*
    [,] checksum [)], the checksum computed by the engine over
    imei [,] command ([,] field)*. *)
Definition body (imei command : jsstring) (fields : list jsstring) : jsstring :=
  imei ++ lit "," ++ command ++ flat_map (fun f => lit "," ++ f) fields.

Definition frame (imei command : jsstring) (fields : list jsstring) : jsstring :=
  lit "(" ++ body imei command fields ++ lit ","
    ++ Server.calculateChecksum (body imei command fields) ++ lit ")".

(** The coordinate decoder as the specification words it: the string is
    split two characters before the decimal point, the leading portion is
    the degrees and the remainder the minutes; the result is
    degrees + minutes/60, negated for hemisphere [S] or [W] and left as
    it is for any other hemisphere. *)
Definition decode (coord hemisphere : jsstring) : number :=
  let k := Z.to_nat (indexOf coord 46 - 2) in
  let degrees := parseFloat (firstn k coord) in
  let minutes := parseFloat (skipn k coord) in
  let decimal := add degrees (div minutes (of_Z 60)) in
  if str_eqb hemisphere (lit "S") || str_eqb hemisphere (lit "W")
  then neg decimal else decimal.

(** [lo < x < hi] on doubles. *)
Definition between (lo x hi : number) : Prop := ltb lo x = true /\ ltb x hi = true.

(** Exactly 15 ASCII digits. *)
Definition imei15 (s : jsstring) : Prop :=
  length s = 15%nat /\ Forall (fun c => 48 <= c <= 57) s.

End Spec.

(* ================================================================= *)
(** ** Concrete inputs *)

Module Examples.
Import JS Server.

Definition imei0 : jsstring := lit "123456789012345".
Definition now0 : jsstring := lit "2025-01-01T12:00:00.000Z".

(** A heartbeat frame with the checksum of [123456789012345,BP00]. *)
Definition heartbeat : jsstring := lit "(123456789012345,BP00,042A)".

Definition heartbeat_packet : packet :=
  {| imei := imei0;
     command := lit "BP00";
     commandName := VString (lit "Heartbeat");
     data := [];
     checksum := lit "042A";
     calculatedChecksum := lit "042A";
     isValid := true;
     timestamp := now0 |}.

(** The same frame with a checksum that does not match. *)
Definition heartbeat_bad : jsstring := lit "(123456789012345,BP00,0000)".

(** Two heartbeat frames in one arrival. *)
Definition two_frames : jsstring := heartbeat ++ heartbeat.

(** The one packet the parser builds from [two_frames]. *)
Definition merged_packet : packet :=
  {| imei := imei0;
     command := lit "BP00";
     commandName := VString (lit "Heartbeat");
     data := [lit "042A)(123456789012345"; lit "BP00"];
     checksum := lit "042A";
     calculatedChecksum := lit "09A8";
     isValid := false;
     timestamp := now0 |}.


(** A frame whose command is a property name of [Object.prototype]. *)
Definition toString_frame : jsstring := lit "(123456789012345,toString,0692)".

(** The fields of the position report the simulator sends. *)
Definition position_fields : list jsstring :=
  [ lit "250101120000"; lit "A"; lit "3116.7845"; lit "N"; lit "12122.7845";
    lit "E"; lit "045.5"; lit "180"; lit "150"; lit "12"; lit "0.8" ].

(** The same report with a latitude that is not a number. *)
Definition position_fields_bad : list jsstring :=
  [ lit "250101120000"; lit "A"; lit "abc"; lit "N"; lit "12122.7845";
    lit "E"; lit "045.5"; lit "180"; lit "150"; lit "12"; lit "0.8" ].

End Examples.

(* ================================================================= *)
(** ** The simulator's report senders (simulator.js) *)

Module Reports.
Import JS.

Fixpoint toRadix10 (fuel : nat) (n : Z) : jsstring :=
  match fuel with
  | O => []
  | S f =>
      if n <? 10 then [48 + n]
      else toRadix10 f (n / 10) ++ [48 + n mod 10]
  end.

(** [n.toString()] for an integer [n] (below 10^21 in absolute value, where
    JavaScript prints plain decimal digits). *)
Definition toString10 (n : Z) : jsstring :=
  if n <? 0 then 45 :: toRadix10 (S (Z.to_nat (Z.log2 (- n)))) (- n)
  else toRadix10 (S (Z.to_nat (Z.log2 n))) n.

(** [s.replace(/[-:]/g, '')]: every [-] and [:] is dropped. *)
Definition replace_dash_colon (s : jsstring) : jsstring :=
  filter (fun c => negb ((c =? 45) || (c =? 58))) s.

(** [now.toISOString().replace(/[-:]/g, '').substring(2, 14)], on the
    string [iso] that [toISOString()] returned. *)
Definition datetime (iso : jsstring) : jsstring :=
  substring (replace_dash_colon iso) 2 14.

(** [this.imei], set by the constructor. *)
Definition imei : jsstring := lit "123456789012345".

(** [sendLoginPacket()]: the packet written. *)
Definition sendLoginPacket : jsstring :=
  Simulator.sendPacket imei (lit "BP01") [lit "GT60"; lit "V1.0"; lit "1.0"].

(** [sendHeartbeat()], [iso] being [new Date().toISOString()]. *)
Definition sendHeartbeat (iso : jsstring) : jsstring :=
  Simulator.sendPacket imei (lit "BP00") [iso].

(** [sendPositionReport()], [iso] being [now.toISOString()]. *)
Definition sendPositionReport (iso : jsstring) : jsstring :=
  Simulator.sendPacket imei (lit "BP02")
    [ datetime iso; lit "A"; lit "3116.7845"; lit "N"; lit "12122.7845";
      lit "E"; lit "045.5"; lit "180"; lit "150"; lit "12"; lit "0.8" ].

(** [sendAlarmReport()], [iso] being [now.toISOString()]. *)
Definition sendAlarmReport (iso : jsstring) : jsstring :=
  Simulator.sendPacket imei (lit "BP03")
    [ lit "SOS"; datetime iso; lit "A"; lit "3116.7845"; lit "N";
      lit "12122.7845"; lit "E" ].

(** [sendHeartRateData()]: [heartRate] is
    [65 + Math.floor(Math.random() * 30)], an integer from 65 to 94, and
    [iso] is [new Date().toISOString()]. *)
Definition sendHeartRateData (heartRate : Z) (iso : jsstring) : jsstring :=
  Simulator.sendPacket imei (lit "BP22") [toString10 heartRate; datetime iso].

(** An ISO timestamp [YYYY-MM-DDTHH:MM:SS.sssZ], from its digits. *)
Definition iso_string (y1 y2 y3 y4 mo1 mo2 d1 d2 h1 h2 mi1 mi2 s1 s2 f1 f2 f3 : Z)
  : jsstring :=
  [y1; y2; y3; y4; 45; mo1; mo2; 45; d1; d2; 84; h1; h2; 58; mi1; mi2; 58;
   s1; s2; 46; f1; f2; f3; 90].

End Reports.

(* ================================================================= *)
(** ** What is looked at in a decoded payload *)

Module Observe.
Import JS Server.

(** The numbers a decoder reads with [parseInt] or [parseFloat] in place
    (the coordinates of a position report are not among them). *)
Definition direct_numbers (p : payload) : list number :=
  match p with
  | PositionData _ _ _ _ speed course altitude satellites hdop =>
      [speed; course; altitude; satellites; hdop]
  | GPSData satelliteCount signalStrength accuracy =>
      [satelliteCount; signalStrength; accuracy]
  | LBSData _ _ _ _ signalStrength => [signalStrength]
  | StepData stepCount calories distance => [stepCount; calories; distance]
  | HeartRateData heartRate _ => [heartRate]
  | _ => []
  end.

(** The strings a decoder fills with a default when the field is missing
    or empty. *)
Definition defaulted_strings (p : payload) : list jsstring :=
  match p with
  | LoginData deviceType firmwareVersion protocol =>
      [deviceType; firmwareVersion; protocol]
  | AlarmData alarmType _ _ => [alarmType]
  | LBSData mcc mnc lac cellId _ => [mcc; mnc; lac; cellId]
  | HeartRateData _ measureTime => [measureTime]
  | _ => []
  end.

(** The commands [parseCommandData] has a decoder for: the [case] labels
    of its [switch]. *)
Definition decoded_commands : list jsstring :=
  [ lit "BP01"; lit "BP02"; lit "BP03"; lit "BP10"; lit "BP11"; lit "BP20";
    lit "BP22" ].

(** All events of a connection, in order. *)
Definition all_events (outs : list (list event * processed)) : list event :=
  flat_map fst outs.

End Observe.

(* ================================================================= *)
(** ** Facts about the runtime operations *)

Module JSFacts.
Import JS.

Lemma str_eqb_refl (a : jsstring) : str_eqb a a = true.
Proof.
  induction a as [|x a IH]; simpl; [reflexivity|].
  now rewrite Z.eqb_refl, IH.
Qed.

Lemma str_eqb_eq (a b : jsstring) : str_eqb a b = true <-> a = b.
Proof.
  split; [|intros ->; apply str_eqb_refl].
  revert b; induction a as [|x a IH]; intros [|y b]; simpl; try discriminate; auto.
  rewrite andb_true_iff, Z.eqb_eq. intros [-> H]. f_equal. now apply IH.
Qed.

Lemma str_eqb_neq (a b : jsstring) : str_eqb a b = false <-> a <> b.
Proof.
  rewrite <- str_eqb_eq. destruct (str_eqb a b); split; congruence.
Qed.

(** *** [trim] *)

Lemma blank_rev (w : jsstring) : blank w -> blank (rev w).
Proof.
  unfold blank. rewrite !forallb_forall. intros H x Hx. apply H. now apply in_rev.
Qed.

Lemma trimStart_blank (w s : jsstring) : blank w -> trimStart (w ++ s) = trimStart s.
Proof.
  unfold blank. induction w as [|c w IH]; simpl; [reflexivity|].
  rewrite andb_true_iff. intros [-> H]. now apply IH.
Qed.

Lemma trimStart_all_blank (w : jsstring) : blank w -> trimStart w = [].
Proof.
  intros H. rewrite <- (app_nil_r w). now rewrite trimStart_blank.
Qed.

Lemma trimStart_app (f g : jsstring) :
  trimStart (f ++ g) =
  match trimStart f with [] => trimStart g | _ :: _ => trimStart f ++ g end.
Proof.
  induction f as [|c f IH]; simpl.
  - now destruct (trimStart g).
  - destruct (isWhiteSpace c); [exact IH | reflexivity].
Qed.

Lemma trimStart_head (c : Z) (s : jsstring) :
  isWhiteSpace c = false -> trimStart (c :: s) = c :: s.
Proof. simpl. now intros ->. Qed.

Lemma trimStart_decompose (s : jsstring) :
  exists a, s = a ++ trimStart s /\ blank a.
Proof.
  induction s as [|c s [a [E B]]]; simpl.
  - now exists [].
  - destruct (isWhiteSpace c) eqn:W.
    + exists (c :: a). split; [simpl; congruence|]. unfold blank; simpl. now rewrite W.
    + now exists [].
Qed.

Lemma trimEnd_blank (s w : jsstring) : blank w -> trimEnd (s ++ w) = trimEnd s.
Proof.
  intros H. unfold trimEnd. rewrite rev_app_distr, trimStart_blank; auto using blank_rev.
Qed.

Lemma trimEnd_decompose (s : jsstring) :
  exists b, s = trimEnd s ++ b /\ blank b.
Proof.
  destruct (trimStart_decompose (rev s)) as [a [E B]].
  exists (rev a). split; [|now apply blank_rev].
  unfold trimEnd. rewrite <- rev_app_distr, <- E. now rewrite rev_involutive.
Qed.

Lemma trim_decompose (s : jsstring) :
  exists a b, s = a ++ trim s ++ b /\ blank a /\ blank b.
Proof.
  destruct (trimStart_decompose s) as [a [Ea Ba]].
  destruct (trimEnd_decompose (trimStart s)) as [b [Eb Bb]].
  exists a, b. unfold trim. now rewrite <- Eb.
Qed.

Lemma In_trim (x : Z) (s : jsstring) : In x (trim s) -> In x s.
Proof.
  destruct (trim_decompose s) as [a [b [E _]]]. intros H.
  rewrite E. apply in_or_app; right. apply in_or_app; now left.
Qed.

(** White space around a string does not change what [trim] returns. *)
Lemma trim_pad (w1 f w2 : jsstring) :
  blank w1 -> blank w2 -> trim (w1 ++ f ++ w2) = trim f.
Proof.
  intros B1 B2. unfold trim. rewrite trimStart_blank by assumption.
  rewrite trimStart_app. destruct (trimStart f) as [|x t] eqn:E.
  - now rewrite trimStart_all_blank.
  - now rewrite trimEnd_blank.
Qed.

(** A string whose first and last code units are not white space is
    its own [trim]. *)
Lemma trim_id (c d : Z) (m : jsstring) :
  isWhiteSpace c = false -> isWhiteSpace d = false ->
  trim (c :: m ++ [d]) = c :: m ++ [d].
Proof.
  intros Hc Hd. unfold trim. rewrite trimStart_head by assumption.
  unfold trimEnd. change (c :: m ++ [d]) with ((c :: m) ++ [d]).
  rewrite rev_app_distr. cbn [rev app].
  rewrite trimStart_head by assumption.
  cbn [rev]. now rewrite rev_app_distr, rev_involutive.
Qed.

(** *** [startsWith], [endsWith] on a one-unit marker *)

Lemma startsWith_nil (s : jsstring) : startsWith s [] = true.
Proof. now destruct s. Qed.

Lemma startsWith_one (s : jsstring) (c : Z) :
  startsWith s [c] = true <-> exists t, s = c :: t.
Proof.
  destruct s as [|d s]; simpl.
  - split; [discriminate | intros [t H]; discriminate].
  - rewrite startsWith_nil, andb_true_r, Z.eqb_eq. split.
    + intros ->. now exists s.
    + intros [t H]. congruence.
Qed.

Lemma endsWith_one (s : jsstring) (c : Z) :
  endsWith s [c] = true <-> exists t, s = t ++ [c].
Proof.
  unfold endsWith. simpl rev at 2. rewrite startsWith_one. split.
  - intros [t H]. exists (rev t).
    rewrite <- (rev_involutive s), H. reflexivity.
  - intros [t ->]. exists (rev t). now rewrite rev_app_distr.
Qed.

(** *** [split], [join], [lastIndexOf] *)

Lemma split_nosep (a : jsstring) (sep : Z) :
  ~ In sep a -> split a sep = [a].
Proof.
  induction a as [|c a IH]; simpl; [reflexivity|].
  intros H. destruct (Z.eqb_spec c sep) as [->|N].
  - exfalso; apply H; now left.
  - rewrite IH; [reflexivity | tauto].
Qed.

Lemma split_app (a b : jsstring) (sep : Z) :
  ~ In sep a -> split (a ++ sep :: b) sep = a :: split b sep.
Proof.
  induction a as [|c a IH]; simpl.
  - now rewrite Z.eqb_refl.
  - intros H. destruct (Z.eqb_spec c sep) as [->|N].
    + exfalso; apply H; now left.
    + rewrite IH; [reflexivity | tauto].
Qed.

Lemma split_nonempty (s : jsstring) (sep : Z) : split s sep <> [].
Proof.
  destruct s as [|c s]; simpl; [discriminate|].
  destruct (c =? sep); [discriminate|]. now destruct (split s sep).
Qed.


Lemma join_cons (sep x : jsstring) (l : list jsstring) :
  l <> [] -> join sep (x :: l) = x ++ sep ++ join sep l.
Proof. destruct l; [congruence | reflexivity]. Qed.

Lemma join_snoc (sep x : jsstring) (l : list jsstring) :
  l <> [] -> join sep (l ++ [x]) = join sep l ++ sep ++ x.
Proof.
  induction l as [|y l IH]; [congruence|]. intros _.
  destruct l as [|z l].
  - reflexivity.
  - change ((y :: z :: l) ++ [x]) with (y :: ((z :: l) ++ [x])).
    rewrite join_cons by (simpl; discriminate).
    rewrite IH by discriminate.
    rewrite (join_cons sep y (z :: l)) by discriminate.
    now rewrite <- !app_assoc.
Qed.

Lemma split_join (sep : Z) (l : list jsstring) :
  l <> [] -> Forall (fun x => ~ In sep x) l ->
  split (join [sep] l) sep = l.
Proof.
  induction l as [|x l IH]; [congruence|]. intros _ H.
  inversion H as [|? ? Hx Hl]; subst.
  destruct l as [|y l].
  - simpl. now apply split_nosep.
  - rewrite join_cons by discriminate. simpl app at 2.
    rewrite split_app by assumption. f_equal. apply IH; [discriminate | assumption].
Qed.

Lemma lastIndexOf_notin (s : jsstring) (c : Z) :
  ~ In c s -> lastIndexOf s c = -1.
Proof.
  induction s as [|d s IH]; simpl; [reflexivity|].
  intros H. rewrite IH by tauto. simpl.
  destruct (Z.eqb_spec d c); [exfalso; apply H; now left | reflexivity].
Qed.

Lemma lastIndexOf_app (a b : jsstring) (c : Z) :
  ~ In c b -> lastIndexOf (a ++ c :: b) c = Z.of_nat (length a).
Proof.
  intros H. induction a as [|d a IH].
  - simpl. rewrite lastIndexOf_notin by assumption. simpl. now rewrite Z.eqb_refl.
  - change ((d :: a) ++ c :: b) with (d :: (a ++ c :: b)).
    cbn [lastIndexOf]. rewrite IH.
    destruct (Z.leb_spec 0 (Z.of_nat (length a))); [|lia].
    cbn [length]. lia.
Qed.

(** *** [slice], [substring] *)

Lemma slice_strip {A} (c d : A) (s : list A) :
  slice (c :: s ++ [d]) 1 (-1) = s.
Proof.
  unfold slice, relIndex. cbn [length]. rewrite length_app. cbn [length].
  replace (1 <? 0) with false by reflexivity.
  replace (-1 <? 0) with true by reflexivity.
  replace (Z.to_nat (Z.min 1 (Z.of_nat (S (length s + 1))))) with 1%nat by lia.
  replace (Z.to_nat _) with (length s) by lia.
  cbn [skipn]. rewrite firstn_app, firstn_all, Nat.sub_diag. cbn. apply app_nil_r.
Qed.

Lemma slice_middle {A} (l : list A) :
  (3 <= length l)%nat ->
  slice l 2 (-1) = firstn (length l - 3) (skipn 2 l).
Proof.
  intros H. unfold slice, relIndex.
  replace (2 <? 0) with false by reflexivity.
  replace (-1 <? 0) with true by reflexivity.
  f_equal; [|f_equal]; lia.
Qed.

Lemma substring_prefix (a b : jsstring) :
  substring (a ++ b) 0 (Z.of_nat (length a)) = a.
Proof.
  unfold substring. rewrite length_app.
  replace (Z.to_nat (Z.min _ _)) with 0%nat by lia.
  replace (Z.to_nat _) with (length a) by lia.
  cbn [skipn]. rewrite firstn_app, firstn_all, Nat.sub_diag. cbn. apply app_nil_r.
Qed.

End JSFacts.

(* ================================================================= *)
(** ** The runtime operations on concrete values *)

Module RuntimeExamples.
Import JS.

Example trim_newline : trim (lit "  (a,b) " ++ [10]) = lit "(a,b)".
Proof. reflexivity. Qed.

Example slice_markers : slice (lit "(a,b,c)") 1 (-1) = lit "a,b,c".
Proof. reflexivity. Qed.

Example split_commas :
  split (lit "a,,b") 44 = [lit "a"; []; lit "b"] /\ split [] 44 = [[]].
Proof. split; reflexivity. Qed.

Example slice_fields :
  slice [lit "i"; lit "c"; lit "x"; lit "y"; lit "k"] 2 (-1) = [lit "x"; lit "y"] /\
  slice [lit "i"; lit "c"; lit "k"] 2 (-1) = [].
Proof. split; reflexivity. Qed.

Example substring_negative :
  substring (lit "5.5") 0 (-1) = [] /\ substring_from (lit "5.5") (-1) = lit "5.5".
Proof. split; reflexivity. Qed.

Example toString16_values :
  toString16 0 = lit "0" /\ toString16 255 = lit "ff" /\ toString16 65535 = lit "ffff".
Proof. repeat split; reflexivity. Qed.

Example bitand_values :
  bitand 65536 65535 = 0 /\ bitand 4295032831 65535 = 65535.
Proof. split; reflexivity. Qed.

Example parseFloat_values :
  parseFloat (lit "045.5") = of_ratio false 91 2 /\
  parseFloat (lit "  -12.5e-1abc") = of_ratio true 5 4 /\
  parseFloat (lit "180") = of_Z 180 /\
  parseFloat (lit "1e400") = S754_infinity false /\
  parseFloat (lit ".") = NaN /\
  parseFloat (lit "-0") = S754_zero true.
Proof. repeat split; reflexivity. Qed.

Example parseInt_values :
  parseInt (lit "12abc") = of_Z 12 /\
  parseInt (lit "0x1F") = of_Z 31 /\
  parseInt (lit "12.9") = of_Z 12 /\
  parseInt (lit "0x") = NaN /\
  or_zero (parseInt (lit "-0")) = zero.
Proof. repeat split; reflexivity. Qed.

Example double_arithmetic :
  add (parseFloat (lit "0.1")) (parseFloat (lit "0.2"))
  = parseFloat (lit "0.30000000000000004").
Proof. reflexivity. Qed.

Example property_lookup :
  get Server.COMMAND_TYPES (lit "BP00") = Some (VString (lit "Heartbeat")) /\
  get Server.COMMAND_TYPES (lit "ZZ99") = None /\
  get Server.COMMAND_TYPES (lit "constructor") = Some (VInherited (lit "constructor")).
Proof. repeat split; reflexivity. Qed.

End RuntimeExamples.

(* ================================================================= *)
(** ** The checksum *)

Module ChecksumFacts.
Import JS.

Lemma sum_loop (s : jsstring) (acc : Z) :
  fold_left (fun sum c => sum + c) s acc = acc + fold_right Z.add 0 s.
Proof.
  revert acc; induction s as [|c s IH]; intros acc; simpl; [lia|].
  rewrite IH. lia.
Qed.

(** [ToInt32] does not change the low 16 bits. *)
Lemma bitand_mask (x : Z) : bitand x 65535 = Z.land x 65535.
Proof.
  unfold bitand. change (ToInt32 65535) with (Z.ones 16).
  change 65535 with (Z.ones 16). rewrite !Z.land_ones by lia.
  unfold ToInt32. change (2 ^ 16) with 65536.
  destruct (2147483648 <=? x mod 4294967296); Z.div_mod_to_equations; lia.
Qed.

Lemma mask_range (x : Z) : 0 <= Z.land x 65535 < 65536.
Proof.
  change 65535 with (Z.ones 16). rewrite Z.land_ones by lia.
  change (2 ^ 16) with 65536. Z.div_mod_to_equations; lia.
Qed.

Lemma toRadix16_small (f : nat) (n : Z) :
  n < 16 -> toRadix16 (S f) n = [hexDigit n].
Proof. intros H. cbn [toRadix16]. destruct (Z.ltb_spec n 16); [reflexivity | lia]. Qed.

Lemma toRadix16_step (f : nat) (n : Z) :
  16 <= n -> toRadix16 (S f) n = toRadix16 f (n / 16) ++ [hexDigit (n mod 16)].
Proof. intros H. cbn [toRadix16]. destruct (Z.ltb_spec n 16); [lia | reflexivity]. Qed.

(** From [16] on, [toString16] runs with fuel for five digits or more. *)
Lemma toString16_fuel (n : Z) :
  16 <= n -> exists k, toString16 n = toRadix16 (S (S (S (S (S k))))) n.
Proof.
  intros H. unfold toString16. destruct (Z.ltb_spec n 0); [lia|].
  assert (L : 4 <= Z.log2 n) by (change 4 with (Z.log2 16); now apply Z.log2_le_mono).
  destruct (Z.to_nat (Z.log2 n)) as [|[|[|[|k]]]] eqn:E; try lia.
  now exists k.
Qed.

Lemma toString16_digit (n : Z) :
  0 <= n < 16 -> toString16 n = [hexDigit n].
Proof.
  intros H. unfold toString16. destruct (Z.ltb_spec n 0); [lia|].
  apply toRadix16_small; lia.
Qed.

(** Upper-casing a digit of [toString(16)]. *)
Lemma upper_hexDigit (d : Z) :
  0 <= d < 16 ->
  (if (97 <=? hexDigit d) && (hexDigit d <=? 122) then hexDigit d - 32 else hexDigit d)
  = Spec.upperHex d.
Proof.
  intros H. unfold hexDigit, Spec.upperHex.
  destruct (Z.ltb_spec d 10).
  - destruct (Z.leb_spec 97 (48 + d)); [lia | reflexivity].
  - destruct (Z.leb_spec 97 (87 + d)); [|lia].
    destruct (Z.leb_spec (87 + d) 122); [|lia]. cbn [andb]. lia.
Qed.

(** The four digits of a 16-bit value. *)
Lemma hex4 (n : Z) :
  0 <= n < 65536 ->
  padStart (toUpperCase (toString16 n)) 4 48 =
  [ Spec.upperHex (n / 4096); Spec.upperHex (n / 256 mod 16);
    Spec.upperHex (n / 16 mod 16); Spec.upperHex (n mod 16) ].
Proof.
  intros H.
  destruct (Z.lt_ge_cases n 16) as [H1|H1].
  { rewrite toString16_digit by lia.
    cbn [toUpperCase map padStart length repeat Nat.sub app].
    rewrite upper_hexDigit by lia.
    replace (n / 4096) with 0 by (Z.div_mod_to_equations; lia).
    replace (n / 256 mod 16) with 0 by (Z.div_mod_to_equations; lia).
    replace (n / 16 mod 16) with 0 by (Z.div_mod_to_equations; lia).
    replace (n mod 16) with n by (Z.div_mod_to_equations; lia).
    reflexivity. }
  destruct (toString16_fuel n H1) as [k ->].
  rewrite toRadix16_step by lia.
  destruct (Z.lt_ge_cases n 256) as [H2|H2].
  { rewrite toRadix16_small by (Z.div_mod_to_equations; lia).
    cbn [toUpperCase map padStart length repeat Nat.sub app].
    rewrite !upper_hexDigit by (Z.div_mod_to_equations; lia).
    replace (n / 4096) with 0 by (Z.div_mod_to_equations; lia).
    replace (n / 256 mod 16) with 0 by (Z.div_mod_to_equations; lia).
    replace (n / 16 mod 16) with (n / 16) by (Z.div_mod_to_equations; lia).
    reflexivity. }
  rewrite toRadix16_step by (Z.div_mod_to_equations; lia).
  destruct (Z.lt_ge_cases n 4096) as [H3|H3].
  { rewrite toRadix16_small by (Z.div_mod_to_equations; lia).
    cbn [toUpperCase map padStart length repeat Nat.sub app].
    rewrite !upper_hexDigit by (Z.div_mod_to_equations; lia).
    replace (n / 4096) with 0 by (Z.div_mod_to_equations; lia).
    replace (n / 16 / 16) with (n / 256 mod 16) by (Z.div_mod_to_equations; lia).
    reflexivity. }
  rewrite toRadix16_step by (Z.div_mod_to_equations; lia).
  rewrite toRadix16_small by (Z.div_mod_to_equations; lia).
  cbn [toUpperCase map padStart length repeat Nat.sub app].
  rewrite !upper_hexDigit by (Z.div_mod_to_equations; lia).
  replace (n / 16 / 16 / 16) with (n / 4096) by (Z.div_mod_to_equations; lia).
  replace (n / 16 / 16 mod 16) with (n / 256 mod 16) by (Z.div_mod_to_equations; lia).
  reflexivity.
Qed.

Lemma upperHex_isUpperHex (d : Z) : 0 <= d < 16 -> Spec.isUpperHex (Spec.upperHex d).
Proof.
  intros H. unfold Spec.isUpperHex, Spec.upperHex. destruct (Z.ltb_spec d 10); lia.
Qed.

Lemma calculateChecksum_spec (s : jsstring) :
  Server.calculateChecksum s = Spec.compute s.
Proof.
  unfold Server.calculateChecksum, Spec.compute.
  rewrite sum_loop, Z.add_0_l, bitand_mask. apply hex4, mask_range.
Qed.

Lemma compute_upperHex (s : jsstring) : Forall Spec.isUpperHex (Spec.compute s).
Proof.
  unfold Spec.compute.
  pose proof (mask_range (fold_right Z.add 0 s)) as R.
  set (n := Z.land _ _) in *.
  repeat (apply Forall_cons; [apply upperHex_isUpperHex; Z.div_mod_to_equations; lia|]).
  apply Forall_nil.
Qed.

(** No comma in a checksum. *)
Lemma calculateChecksum_no_comma (s : jsstring) :
  ~ In 44 (Server.calculateChecksum s).
Proof.
  rewrite calculateChecksum_spec. intros H.
  pose proof (compute_upperHex s) as F. rewrite Forall_forall in F.
  apply F in H. unfold Spec.isUpperHex in H. lia.
Qed.

End ChecksumFacts.

(* ================================================================= *)
(** ** The packet parser *)

Module ParserFacts.
Import JS Server JSFacts ChecksumFacts.


Lemma inr_inj {A B} (x y : B) : @inr A B x = inr y -> x = y.
Proof. congruence. Qed.

Lemma imei_regex_spec (s : jsstring) : imei_regex s = true <-> Spec.imei15 s.
Proof.
  unfold imei_regex, Spec.imei15.
  rewrite andb_true_iff, Nat.eqb_eq, forallb_forall, Forall_forall.
  unfold isDigit. split; intros [L D]; split; auto; intros x Hx; specialize (D x Hx); lia.
Qed.

Lemma imei15_no_comma (s : jsstring) : Spec.imei15 s -> ~ In 44 s.
Proof.
  intros [_ D] H. rewrite Forall_forall in D. apply D in H. lia.
Qed.

(** The packet built once the three checks have passed. *)
Lemma parsePacket_checks (data now : jsstring) :
  snd (parsePacket data now) =
  let packet := trim data in
  let content := slice packet 1 (-1) in
  let parts := split content 44 in
  if negb (startsWith packet [40]) || negb (endsWith packet [41])
  then inl {| error := MissingDelimiters; rawData := data; failure_timestamp := now |}
  else if (length parts <? 3)%nat
  then inl {| error := InsufficientFields; rawData := data; failure_timestamp := now |}
  else if negb (imei_regex (nth 0 parts []))
  then inl {| error := InvalidIMEI; rawData := data; failure_timestamp := now |}
  else inr {| imei := nth 0 parts [];
              command := nth 1 parts [];
              commandName :=
                match get COMMAND_TYPES (nth 1 parts []) with
                | Some (VString (c :: n)) => VString (c :: n)
                | Some (VInherited f) => VInherited f
                | _ => VString (lit "Unknown")
                end;
              data := slice parts 2 (-1);
              checksum := nth (length parts - 1) parts [];
              calculatedChecksum :=
                calculateChecksum (substring content 0 (lastIndexOf content 44));
              isValid :=
                str_eqb (calculateChecksum (substring content 0 (lastIndexOf content 44)))
                        (nth (length parts - 1) parts []);
              timestamp := now |}.
Proof.
  unfold parsePacket, caught.
  change PROTOCOL_START with [40]. change PROTOCOL_END with [41]. cbv zeta.
  destruct (negb (startsWith (trim data) [40]) || negb (endsWith (trim data) [41]));
    [reflexivity|].
  destruct (length (split (slice (trim data) 1 (-1)) 44) <? 3)%nat; [reflexivity|].
  destruct (negb (imei_regex (nth 0 (split (slice (trim data) 1 (-1)) 44) [])));
    reflexivity.
Qed.

(** A string between the two markers passes the first check, and its
    content is what lies between them. *)
Lemma delimited (content : jsstring) :
  trim (40 :: content ++ [41]) = 40 :: content ++ [41] /\
  startsWith (40 :: content ++ [41]) [40] = true /\
  endsWith (40 :: content ++ [41]) [41] = true /\
  slice (40 :: content ++ [41]) 1 (-1) = content.
Proof.
  repeat split.
  - now apply trim_id.
  - apply startsWith_one. now exists (content ++ [41]).
  - apply endsWith_one. now exists (40 :: content).
  - apply slice_strip.
Qed.

Lemma body_join (imei command : jsstring) (fields : list jsstring) :
  Spec.body imei command fields = join [44] (imei :: command :: fields).
Proof.
  unfold Spec.body. change (lit ",") with [44].
  rewrite join_cons by discriminate. f_equal. f_equal.
  revert command. induction fields as [|f fs IH]; intros command; simpl.
  - apply app_nil_r.
  - f_equal. f_equal. apply (IH f).
Qed.

End ParserFacts.

(* ================================================================= *)
(** ** Checksum engine and packet parser: the properties *)

Module ParserProperties.
Import JS Server JSFacts ChecksumFacts ParserFacts.

(** C5: ChecksumEngine: for every string, [calculateChecksum] is the sum
    of the character codes masked with [0xFFFF], written in upper-case
    hexadecimal and left-padded with zeros to four characters
    ([Spec.compute]); the result has exactly four characters, each an
    upper-case hexadecimal digit. The simulator's copy computes the same
    string. The result is a function of the text alone: no state or clock
    enters it, so equal inputs give equal outputs. *)
Theorem calculateChecksum_format (s : jsstring) :
  calculateChecksum s = Spec.compute s /\
  length (calculateChecksum s) = 4%nat /\
  Forall Spec.isUpperHex (calculateChecksum s) /\
  Simulator.calculateChecksum s = calculateChecksum s.
Proof.
  repeat split.
  - apply calculateChecksum_spec.
  - now rewrite calculateChecksum_spec.
  - rewrite calculateChecksum_spec. apply compute_upperHex.
Qed.

Lemma nth_last {A} (l : list A) (x d : A) :
  nth (length (l ++ [x]) - 1) (l ++ [x]) d = x.
Proof.
  rewrite length_app. cbn [length].
  replace (length l + 1 - 1)%nat with (length l) by lia.
  now rewrite app_nth2, Nat.sub_diag by lia.
Qed.

Lemma frame_shape (imei command : jsstring) (fields : list jsstring) :
  Spec.frame imei command fields =
  40 :: (Spec.body imei command fields
           ++ 44 :: calculateChecksum (Spec.body imei command fields)) ++ [41].
Proof.
  unfold Spec.frame. change (lit "(") with [40]. change (lit ",") with [44].
  change (lit ")") with [41]. cbn [app]. now rewrite <- app_assoc.
Qed.

(** C3: Checksum round trip: a frame built from a 15-digit IMEI, a
    command and fields, none containing a comma, with the checksum the
    engine computes over imei,command,fields, parses to a packet with
    [isValid = true] (and with that IMEI, command, fields and checksum);
    it is the frame the simulator's [sendPacket] writes. *)
Theorem checksum_round_trip
    (imei command : jsstring) (fields : list jsstring) (now : jsstring) :
  Spec.imei15 imei ->
  ~ In 44 command ->
  Forall (fun f => ~ In 44 f) fields ->
  (exists pk,
      snd (parsePacket (Spec.frame imei command fields) now) = inr pk /\
      isValid pk = true /\
      Server.imei pk = imei /\ Server.command pk = command /\
      data pk = fields /\
      checksum pk = calculateChecksum (Spec.body imei command fields)) /\
  Simulator.sendPacket imei command fields = Spec.frame imei command fields.
Proof.
  intros Hi Hc Hf. split.
  2:{ unfold Simulator.sendPacket, Spec.frame. rewrite body_join.
      change (lit ",") with [44]. reflexivity. }
  set (b := Spec.body imei command fields).
  set (cs := calculateChecksum b).
  assert (Hcs : ~ In 44 cs) by apply calculateChecksum_no_comma.
  assert (Hparts : split (b ++ 44 :: cs) 44 = imei :: command :: fields ++ [cs]).
  { change (b ++ 44 :: cs) with (b ++ [44] ++ cs). unfold b.
    rewrite body_join, <- join_snoc by discriminate.
    apply split_join; [discriminate|].
    repeat apply Forall_cons; auto using imei15_no_comma.
    apply Forall_app; split; auto. }
  rewrite frame_shape. fold b. fold cs.
  rewrite parsePacket_checks. cbv zeta.
  destruct (delimited (b ++ 44 :: cs)) as (-> & -> & -> & ->).
  rewrite Hparts. cbn [negb orb].
  change (nth 0 (imei :: command :: fields ++ [cs]) []) with imei.
  change (nth 1 (imei :: command :: fields ++ [cs]) []) with command.
  replace (length (imei :: command :: fields ++ [cs]) <? 3)%nat with false
    by (symmetry; apply Nat.ltb_ge; cbn [length]; rewrite length_app; cbn [length]; lia).
  replace (imei_regex imei) with true by (symmetry; now apply imei_regex_spec).
  cbn [negb].
  eexists; split; [reflexivity|]. cbn [isValid Server.imei Server.command data checksum].
  change (imei :: command :: fields ++ [cs]) with ((imei :: command :: fields) ++ [cs]).
  rewrite nth_last, lastIndexOf_app, substring_prefix by assumption.
  fold cs. rewrite str_eqb_refl. repeat split.
  rewrite slice_middle by (rewrite length_app; cbn [length]; lia).
  rewrite length_app. cbn [length skipn app].
  replace (S (S (length fields)) + 1 - 3)%nat with (length fields) by lia.
  now rewrite firstn_app, firstn_all, Nat.sub_diag, app_nil_r.
Qed.

(** C9: Packet shape: for every frame that parses, the packet's fields
    are the parts of the comma-split content from index 2 up to, and not
    including, the last one, so their number is the number of parts
    minus 3. *)
Theorem fields_shape (raw now : jsstring) (pk : packet) :
  snd (parsePacket raw now) = inr pk ->
  let parts := split (slice (trim raw) 1 (-1)) 44 in
  data pk = slice parts 2 (-1) /\
  data pk = firstn (length parts - 3) (skipn 2 parts) /\
  Z.of_nat (length (data pk)) = Z.of_nat (length parts) - 3.
Proof.
  rewrite parsePacket_checks. cbv zeta.
  destruct (negb _ || negb _); [discriminate|].
  destruct (Nat.ltb_spec (length (split (slice (trim raw) 1 (-1)) 44)) 3);
    [discriminate|].
  destruct (negb _); [discriminate|].
  intros E. apply inr_inj in E. subst pk. cbn [data].
  rewrite slice_middle by assumption. repeat split.
  rewrite length_firstn, length_skipn. lia.
Qed.

Lemma fields_shape_witness :
  snd (parsePacket Examples.heartbeat Examples.now0) = inr Examples.heartbeat_packet /\
  Z.of_nat (length (data Examples.heartbeat_packet)) =
  Z.of_nat (length (split (slice (trim Examples.heartbeat) 1 (-1)) 44)) - 3.
Proof.
  split; [reflexivity|].
  apply (fields_shape Examples.heartbeat Examples.now0 Examples.heartbeat_packet).
  reflexivity.
Defined.

Lemma checksum_round_trip_witness :
  exists pk,
    snd (parsePacket (Spec.frame Examples.imei0 (lit "BP01")
                        [lit "GT60"; lit "V1.0"; lit "1.0"]) Examples.now0) = inr pk /\
    isValid pk = true.
Proof.
  destruct (checksum_round_trip Examples.imei0 (lit "BP01")
              [lit "GT60"; lit "V1.0"; lit "1.0"] Examples.now0)
    as [[pk [H [V _]]] _].
  - split; [reflexivity|]. repeat constructor; vm_compute; discriminate.
  - vm_compute. intuition discriminate.
  - repeat constructor; vm_compute; intuition discriminate.
  - exists pk. now split.
Defined.

(** The parses the specification lists. *)
Example parse_heartbeat :
  snd (parsePacket (lit "(123456789012345,BP00,"
                      ++ calculateChecksum (lit "123456789012345,BP00") ++ lit ")")
         Examples.now0)
  = inr Examples.heartbeat_packet.
Proof. reflexivity. Qed.

Example parse_two_parts :
  snd (parsePacket (lit "(123456789012345,BP00)") Examples.now0)
  = inl {| error := InsufficientFields; rawData := lit "(123456789012345,BP00)";
           failure_timestamp := Examples.now0 |}.
Proof. reflexivity. Qed.

Example parse_no_start_marker :
  snd (parsePacket (lit "123456789012345,BP00,ABCD)") Examples.now0)
  = inl {| error := MissingDelimiters; rawData := lit "123456789012345,BP00,ABCD)";
           failure_timestamp := Examples.now0 |}.
Proof. reflexivity. Qed.

Example parse_short_imei :
  snd (parsePacket (lit "(12345678901234,BP00,ABCD)") Examples.now0)
  = inl {| error := InvalidIMEI; rawData := lit "(12345678901234,BP00,ABCD)";
           failure_timestamp := Examples.now0 |}.
Proof. reflexivity. Qed.





End ParserProperties.

(* ================================================================= *)
(** ** The session loop *)

Module SessionProperties.
Import JS Server JSFacts ChecksumFacts ParserFacts.

Lemma writes_app (a b : list event) : writes (a ++ b) = writes a ++ writes b.
Proof. apply flat_map_app. Qed.

(** [parsePacket] writes nothing on the socket. *)
Lemma parsePacket_no_write (raw now : jsstring) :
  writes (fst (parsePacket raw now)) = [].
Proof.
  unfold parsePacket, caught. cbv zeta.
  repeat match goal with
         | |- context [if ?c then _ else _] => destruct c
         end;
    cbn [fst]; rewrite ?writes_app; reflexivity.
Qed.

Lemma on_data_writes (p : GT60PacketParser) (arrival now : jsstring) :
  writes (handler_events (on_data p arrival now)) =
  match snd (parsePacket arrival now) with
  | inr pk => [lit "(" ++ imei pk ++ lit ",BR00,OK)"]
  | inl _ => []
  end.
Proof.
  pose proof (parsePacket_no_write arrival now) as W.
  unfold on_data. destruct (parsePacket arrival now) as [log [e|pk]];
    cbn [fst snd handler_events] in *.
  - exact W.
  - now rewrite writes_app, W.
Qed.

Lemma on_data_parsed (p : GT60PacketParser) (arrival now : jsstring) :
  parsed (handler_result (on_data p arrival now)) = snd (parsePacket arrival now) /\
  handler_state (on_data p arrival now) = p.
Proof.
  unfold on_data. now destruct (parsePacket arrival now) as [log [e|pk]].
Qed.

(** C2: Acknowledgment: for every arrival, the bytes the handler writes
    on the connection are the one acknowledgment [(imei,BR00,OK)] when
    [parsePacket] returned a packet, and nothing when it returned a
    failure; the checksum flag plays no part, and a packet whose
    [isValid] is [false] is acknowledged (as [heartbeat_bad] is). *)
Theorem ack_iff_parsed (p : GT60PacketParser) (arrival now : jsstring) :
  writes (handler_events (on_data p arrival now)) =
    match snd (parsePacket arrival now) with
    | inr pk => [lit "(" ++ imei pk ++ lit ",BR00,OK)"]
    | inl _ => []
    end /\
  (exists pk,
      snd (parsePacket Examples.heartbeat_bad now) = inr pk /\
      isValid pk = false /\
      writes (handler_events (on_data p Examples.heartbeat_bad now)) =
        [lit "(123456789012345,BR00,OK)"]).
Proof.
  split; [apply on_data_writes|].
  rewrite on_data_writes, parsePacket_checks.
  eexists; split; [vm_compute; reflexivity|]. split; reflexivity.
Qed.


Lemma startsWith_In (s : jsstring) (c : Z) : startsWith s [c] = true -> In c s.
Proof. rewrite startsWith_one. intros [t ->]. now left. Qed.

Lemma endsWith_In (s : jsstring) (c : Z) : endsWith s [c] = true -> In c s.
Proof.
  rewrite endsWith_one. intros [t ->]. apply in_or_app; right; now left.
Qed.

(** An arrival with no [)] in it, or with no [(], fails the marker check. *)
Lemma unmarked_arrival (raw now : jsstring) :
  ~ In 41 raw \/ ~ In 40 raw ->
  snd (parsePacket raw now) =
  inl {| error := MissingDelimiters; rawData := raw; failure_timestamp := now |}.
Proof.
  intros H. rewrite parsePacket_checks. cbv zeta.
  destruct (startsWith (trim raw) [40]) eqn:S; [|reflexivity].
  destruct (endsWith (trim raw) [41]) eqn:E; [|reflexivity].
  apply startsWith_In, In_trim in S. apply endsWith_In, In_trim in E. tauto.
Qed.




(** C10, as stated, fails on the code: a failure carries the input as it
    arrived, so the same failing frame with and without a trailing newline
    gives two different results. *)
Lemma whitespace_counterexample :
  ~ (forall w1 f w2 now : jsstring,
        blank w1 -> blank w2 ->
        snd (parsePacket (w1 ++ f ++ w2) now) = snd (parsePacket f now)).
Proof.
  intros H.
  specialize (H [] (lit "abc") [10] Examples.now0 eq_refl eq_refl).
  vm_compute in H. discriminate H.
Qed.

(** C10, amended: white space around the input: [parsePacket] logs the
    same lines for [w1 ++ f ++ w2] as for [f]; when [f] parses, the padded
    input parses to the same packet (so a frame followed by a newline
    parses as the bare frame does); when [f] fails, the padded input fails
    with the same message, and its [rawData] is the padded input. *)
Theorem whitespace_tolerance (w1 f w2 now : jsstring) :
  blank w1 -> blank w2 ->
  fst (parsePacket (w1 ++ f ++ w2) now) = fst (parsePacket f now) /\
  match snd (parsePacket f now) with
  | inr pk => snd (parsePacket (w1 ++ f ++ w2) now) = inr pk
  | inl e =>
      rawData e = f /\
      snd (parsePacket (w1 ++ f ++ w2) now) =
      inl {| error := error e; rawData := w1 ++ f ++ w2;
             failure_timestamp := failure_timestamp e |}
  end.
Proof.
  intros B1 B2. unfold parsePacket, caught. cbv zeta.
  rewrite (trim_pad w1 f w2 B1 B2).
  repeat match goal with
         | |- context [if ?c then _ else _] => destruct c
         end;
    cbn [fst snd error rawData failure_timestamp]; auto.
Qed.

Lemma whitespace_tolerance_witness :
  snd (parsePacket (Examples.heartbeat ++ [10]) Examples.now0)
  = inr Examples.heartbeat_packet.
Proof.
  pose proof (whitespace_tolerance [] Examples.heartbeat [10] Examples.now0
                eq_refl eq_refl) as [_ H].
  exact H.
Defined.

End SessionProperties.

(* ================================================================= *)
(** ** The command registry and the decoders *)

Module DecoderProperties.
Import JS Server JSFacts ParserFacts.

Lemma str_eqb_sym (a b : jsstring) : str_eqb a b = str_eqb b a.
Proof.
  destruct (str_eqb a b) eqn:E.
  - apply str_eqb_eq in E. subst. symmetry. apply str_eqb_refl.
  - symmetry. apply str_eqb_neq. apply str_eqb_neq in E. congruence.
Qed.

Lemma assoc_none (key : jsstring) (o : list (jsstring * jsstring)) :
  assoc key o = None -> forall k v, In (k, v) o -> str_eqb key k = false.
Proof.
  induction o as [|[k0 v0] o IH]; simpl; [tauto|].
  destruct (str_eqb k0 key) eqn:E; [discriminate|].
  intros H k v [[= <- <-]|I].
  - now rewrite str_eqb_sym.
  - now apply (IH H k v).
Qed.

(** The warnings of [parsePacket]: one, naming the command, exactly when
    the lookup in [COMMAND_TYPES] gives a falsy value. *)
Lemma parsePacket_warnings (raw now : jsstring) (pk : packet) :
  snd (parsePacket raw now) = inr pk ->
  warnings (fst (parsePacket raw now)) =
  if truthy_prop (get COMMAND_TYPES (command pk)) then []
  else [lit "Unknown command type: " ++ command pk].
Proof.
  unfold parsePacket, caught. cbv zeta.
  destruct (negb _ || negb _); [discriminate|].
  destruct (length _ <? 3)%nat; [discriminate|].
  destruct (negb (imei_regex _)); [discriminate|].
  cbn [fst snd]. intros E. apply inr_inj in E. subst pk. cbn [command].
  destruct (truthy_prop _); reflexivity.
Qed.

(** A command that is neither registered nor a property name inherited
    from [Object.prototype] gets the name [Unknown], one warning, and the
    raw fallback payload. *)
Lemma unknown_command_fallback (raw now now' : jsstring) (pk : packet) :
  snd (parsePacket raw now) = inr pk ->
  get COMMAND_TYPES (command pk) = None ->
  commandName pk = VString (lit "Unknown") /\
  warnings (fst (parsePacket raw now)) = [lit "Unknown command type: " ++ command pk] /\
  parseCommandData (command pk) (data pk) now' = RawData (data pk).
Proof.
  intros P G. split; [|split].
  - rewrite parsePacket_checks in P. cbv zeta in P.
    destruct (negb _ || negb _); [discriminate|].
    destruct (length _ <? 3)%nat; [discriminate|].
    destruct (negb (imei_regex _)); [discriminate|].
    apply inr_inj in P. subst pk. cbn [commandName command] in *. now rewrite G.
  - rewrite (parsePacket_warnings raw now pk P), G. reflexivity.
  - unfold get in G. destruct (assoc (command pk) COMMAND_TYPES) eqn:A; [discriminate|].
    pose proof (assoc_none _ _ A) as N. unfold parseCommandData.
    rewrite (N (lit "BP01") (lit "Login")) by (simpl; tauto).
    rewrite (N (lit "BP02") (lit "Position Report")) by (simpl; tauto).
    rewrite (N (lit "BP03") (lit "Alarm Report")) by (simpl; tauto).
    rewrite (N (lit "BP10") (lit "GPS Info")) by (simpl; tauto).
    rewrite (N (lit "BP11") (lit "LBS Info")) by (simpl; tauto).
    rewrite (N (lit "BP20") (lit "Step Count")) by (simpl; tauto).
    rewrite (N (lit "BP22") (lit "Heart Rate")) by (simpl; tauto).
    reflexivity.
Qed.

(** No four-character code is a property name of [Object.prototype]. *)
Lemma four_characters_not_inherited (c : jsstring) :
  length c = 4%nat -> existsb (str_eqb c) Object_prototype_keys = false.
Proof.
  intros L. apply not_true_is_false. intros H.
  apply existsb_exists in H. destruct H as [k [I E]].
  apply str_eqb_eq in E. subst k.
  simpl in I. repeat (destruct I as [I|I]; [subst c; discriminate L|]). exact I.
Qed.

(** The command [ZZ99] of a well-formed frame: name [Unknown], a
    warning, the raw fallback. *)
Lemma unknown_command_ZZ99 :
  exists pk,
    snd (parsePacket (Simulator.sendPacket Examples.imei0 (lit "ZZ99") [lit "x"])
           Examples.now0) = inr pk /\
    commandName pk = VString (lit "Unknown") /\
    warnings (fst (parsePacket (Simulator.sendPacket Examples.imei0 (lit "ZZ99") [lit "x"])
                     Examples.now0)) = [lit "Unknown command type: ZZ99"] /\
    parseCommandData (command pk) (data pk) Examples.now0 = RawData [lit "x"].
Proof. eexists. repeat split; vm_compute; reflexivity. Qed.

(** C7: at the frame [(123456789012345,toString,0692)], whose command is
    not in the registry and whose checksum is right, the code parses
    without a failure and decodes to the raw fallback, but the name it
    gives is the function inherited from [Object.prototype], not
    [Unknown], and it flags no warning. *)
Theorem unknown_command_inherited :
  assoc (lit "toString") COMMAND_TYPES = None /\
  exists pk,
    snd (parsePacket Examples.toString_frame Examples.now0) = inr pk /\
    command pk = lit "toString" /\
    isValid pk = true /\
    commandName pk = VInherited (lit "toString") /\
    commandName pk <> VString (lit "Unknown") /\
    warnings (fst (parsePacket Examples.toString_frame Examples.now0)) = [] /\
    parseCommandData (command pk) (data pk) Examples.now0 = RawData (data pk).
Proof.
  split; [reflexivity|]. eexists.
  split; [vm_compute; reflexivity|].
  cbn [command isValid commandName data].
  repeat split; try reflexivity. discriminate.
Qed.

(** *** The coordinate decoder *)

Lemma substring_firstn (s : jsstring) (n : Z) :
  substring s 0 n = firstn (Z.to_nat n) s.
Proof.
  unfold substring.
  replace (Z.to_nat (Z.min (Z.min (Z.max 0 0) _) _)) with 0%nat by lia.
  cbn [skipn].
  destruct (Z.le_gt_cases n (Z.of_nat (length s))).
  - f_equal. lia.
  - rewrite !firstn_all2 by lia. reflexivity.
Qed.

Lemma substring_from_skipn (s : jsstring) (n : Z) :
  substring_from s n = skipn (Z.to_nat n) s.
Proof.
  unfold substring_from, substring.
  destruct (Z.le_gt_cases n (Z.of_nat (length s))).
  - replace (Z.to_nat (Z.min _ _)) with (Z.to_nat n) by lia.
    apply firstn_all2. rewrite length_skipn. lia.
  - replace (Z.to_nat (Z.min _ _)) with (length s) by lia.
    rewrite !skipn_all2 by lia. apply firstn_nil.
Qed.

(** [indexOf] points at the character it looks for. *)
Lemma indexOf_nth (s : jsstring) (c : Z) :
  0 <= indexOf s c -> nth_error s (Z.to_nat (indexOf s c)) = Some c.
Proof.
  induction s as [|d s IH]; cbn [indexOf]; [lia|].
  destruct (Z.eqb_spec d c) as [->|N]; [reflexivity|].
  destruct (Z.ltb_spec (indexOf s c) 0); [lia|]. intros _.
  replace (Z.to_nat (indexOf s c + 1)) with (S (Z.to_nat (indexOf s c))) by lia.
  apply IH. lia.
Qed.

Lemma parseCoordinate_decode (coord hemisphere : jsstring) :
  coord <> [] -> hemisphere <> [] ->
  parseCoordinate (Some coord) (Some hemisphere) = Spec.decode coord hemisphere.
Proof.
  intros Hc Hh. unfold parseCoordinate, Spec.decode.
  destruct coord as [|c0 coord]; [congruence|].
  destruct hemisphere as [|h0 hemisphere]; [congruence|].
  cbn [truthy negb orb ToString]. cbv zeta.
  now rewrite substring_firstn, substring_from_skipn.
Qed.

(** C6: CoordinateDecoder. For every non-empty coordinate string and
    every non-empty hemisphere, [parseCoordinate] is the decoder of the
    specification: the string is cut into a leading portion and a
    remainder (when the decimal point is at index 2 or more, it is the
    third character of the remainder, so the cut is two characters before
    it), and the result is degrees + minutes/60, negated for hemisphere
    [S] or [W] and not negated for [N], [E] or anything else. A missing
    ([undefined] or empty) coordinate or hemisphere yields 0. On the fields
    of the simulator's position report, 3116.7845 N decodes to a latitude
    between 31.27974 and 31.27976 and 12122.7845 E to a longitude between
    121.37974 and 121.37976, with fix [Valid], speed 45.5 and 12
    satellites. *)
Theorem coordinate_decoder (coord hemisphere : jsstring) (v : option jsstring) :
  coord <> [] -> hemisphere <> [] ->
  (parseCoordinate (Some coord) (Some hemisphere) = Spec.decode coord hemisphere /\
   (let k := Z.to_nat (indexOf coord 46 - 2) in
    coord = firstn k coord ++ skipn k coord /\
    (2 <= indexOf coord 46 -> nth_error (skipn k coord) 2 = Some 46)) /\
   (str_eqb hemisphere (lit "S") = false -> str_eqb hemisphere (lit "W") = false ->
    parseCoordinate (Some coord) (Some hemisphere) =
    add (parseFloat (firstn (Z.to_nat (indexOf coord 46 - 2)) coord))
        (div (parseFloat (skipn (Z.to_nat (indexOf coord 46 - 2)) coord)) (of_Z 60))) /\
   parseCoordinate (Some coord) (Some (lit "S")) = neg (Spec.decode coord (lit "N")) /\
   parseCoordinate (Some coord) (Some (lit "W")) = neg (Spec.decode coord (lit "E"))) /\
  (parseCoordinate None v = zero /\ parseCoordinate (Some []) v = zero /\
   parseCoordinate v None = zero /\ parseCoordinate v (Some []) = zero) /\
  (Spec.between (parseFloat (lit "31.27974"))
                (parseCoordinate (Some (lit "3116.7845")) (Some (lit "N")))
                (parseFloat (lit "31.27976")) /\
   Spec.between (parseFloat (lit "121.37974"))
                (parseCoordinate (Some (lit "12122.7845")) (Some (lit "E")))
                (parseFloat (lit "121.37976")) /\
   exists latitude longitude course altitude hdop,
     parsePositionData Examples.position_fields =
     PositionData (Some (lit "250101120000")) (lit "Valid") latitude longitude
                  (parseFloat (lit "45.5")) course altitude (of_Z 12) hdop /\
     Spec.between (parseFloat (lit "31.27974")) latitude (parseFloat (lit "31.27976")) /\
     Spec.between (parseFloat (lit "121.37974")) longitude (parseFloat (lit "121.37976"))).
Proof.
  intros Hc Hh. split; [|split].
  - split; [now apply parseCoordinate_decode|]. split; [|split; [|split]].
    + cbv zeta. split; [now rewrite firstn_skipn|].
      intros I. pose proof (indexOf_nth coord 46 ltac:(lia)) as N.
      rewrite nth_error_skipn.
      replace (Z.to_nat (indexOf coord 46 - 2) + 2)%nat
        with (Z.to_nat (indexOf coord 46)) by lia.
      exact N.
    + intros S W. rewrite parseCoordinate_decode by assumption.
      unfold Spec.decode. now rewrite S, W.
    + rewrite parseCoordinate_decode by (assumption || discriminate). reflexivity.
    + rewrite parseCoordinate_decode by (assumption || discriminate). reflexivity.
  - unfold parseCoordinate. cbn [truthy negb orb].
    repeat split; try reflexivity; destruct v as [[|? ?]|]; reflexivity.
  - split; [vm_compute; auto|]. split; [vm_compute; auto|].
    do 5 eexists. split; [vm_compute; reflexivity|]. split; vm_compute; auto.
Qed.

Lemma coordinate_decoder_witness :
  parseCoordinate (Some (lit "3116.7845")) (Some (lit "N"))
  = Spec.decode (lit "3116.7845") (lit "N").
Proof.
  destruct (coordinate_decoder (lit "3116.7845") (lit "N") None) as [[H _] _].
  - discriminate.
  - discriminate.
  - exact H.
Defined.

(** *** Numeric fields *)

(** A failed numeric parse is [NaN]: a missing field, an empty field, a
    field with no leading number. *)
Lemma failed_parses :
  parseFloat (ToString None) = NaN /\ parseInt (ToString None) = NaN /\
  parseFloat [] = NaN /\ parseInt [] = NaN /\
  parseFloat (lit "abc") = NaN /\ parseInt (lit "abc") = NaN.
Proof. repeat split; reflexivity. Qed.

(** [x || 0] is [0] for [NaN], and is never [NaN]. *)
Lemma or_zero_fallback (x : number) :
  (x = NaN -> or_zero x = zero) /\ or_zero x <> NaN.
Proof.
  split; [now intros ->|]. unfold or_zero. destruct x; discriminate.
Qed.

(** The fields the decoders parse with [parseInt] or [parseFloat] in
    place all pass through [|| 0]. *)
Lemma direct_numeric_fields (data : list jsstring) (now : jsstring) :
  parseGPSData data =
    GPSData (or_zero (parseInt (ToString (idx data 0))))
            (or_zero (parseInt (ToString (idx data 1))))
            (or_zero (parseFloat (ToString (idx data 2)))) /\
  (exists mcc mnc lac cellId,
     parseLBSData data =
       LBSData mcc mnc lac cellId (or_zero (parseInt (ToString (idx data 4))))) /\
  parseStepData data =
    StepData (or_zero (parseInt (ToString (idx data 0))))
             (or_zero (parseFloat (ToString (idx data 1))))
             (or_zero (parseFloat (ToString (idx data 2)))) /\
  (exists measureTime,
     parseHeartRateData data now =
       HeartRateData (or_zero (parseInt (ToString (idx data 0)))) measureTime) /\
  (parsePositionData data = RawData data \/
   exists datetime gpsFix,
     parsePositionData data =
       PositionData datetime gpsFix
         (parseCoordinate (idx data 2) (idx data 3))
         (parseCoordinate (idx data 4) (idx data 5))
         (or_zero (parseFloat (ToString (idx data 6))))
         (or_zero (parseFloat (ToString (idx data 7))))
         (or_zero (parseFloat (ToString (idx data 8))))
         (or_zero (parseInt (ToString (idx data 9))))
         (or_zero (parseFloat (ToString (idx data 10))))).
Proof.
  repeat split.
  - unfold parseLBSData. now do 4 eexists.
  - unfold parseHeartRateData. now eexists.
  - unfold parsePositionData. destruct (length data <? 10)%nat; [now left|].
    right. now do 2 eexists.
Qed.

(** C8: at the BP02 field list whose latitude is [abc] (10 fields or
    more, hemisphere [N]), the decoder raises nothing, but the latitude of
    the typed payload is [NaN], not 0: [parseCoordinate] has no [|| 0]
    behind its [parseFloat], as every other numeric field has. *)
Theorem position_latitude_not_zero :
  idx Examples.position_fields_bad 2 = Some (lit "abc") /\
  parseFloat (lit "abc") = NaN /\
  exists longitude,
    parseCommandData (lit "BP02") Examples.position_fields_bad Examples.now0 =
    PositionData (Some (lit "250101120000")) (lit "Valid") NaN longitude
                 (parseFloat (lit "45.5")) (of_Z 180) (of_Z 150) (of_Z 12)
                 (parseFloat (lit "0.8")) /\
    NaN <> zero.
Proof.
  split; [reflexivity|]. split; [reflexivity|].
  eexists. split; [vm_compute; reflexivity | discriminate].
Qed.

End DecoderProperties.

(* ================================================================= *)
(** ** Frames as comma-joined parts *)

Module FrameFacts.
Import JS Server JSFacts ChecksumFacts ParserFacts.

Lemma split_app_sep (a b : jsstring) (sep : Z) :
  split (a ++ sep :: b) sep = split a sep ++ split b sep.
Proof.
  induction a as [|c a IH]; cbn [app split].
  - now rewrite Z.eqb_refl.
  - destruct (c =? sep); [now rewrite IH|].
    rewrite IH. destruct (split a sep) eqn:E; [now apply split_nonempty in E|].
    reflexivity.
Qed.

(** No part of a split contains the separator. *)
Lemma split_no_sep (s : jsstring) (sep : Z) :
  Forall (fun p => ~ In sep p) (split s sep).
Proof.
  induction s as [|c s IH]; cbn [split].
  - constructor; [intros [] | constructor].
  - destruct (Z.eqb_spec c sep) as [->|N].
    + constructor; [intros [] | exact IH].
    + destruct (split s sep) as [|p ps]; [repeat constructor; intros [E|[]]; congruence|].
      inversion IH as [|? ? Hp Hps]; subst. constructor; [|exact Hps].
      intros [E|I]; [congruence | tauto].
Qed.

(** Joining the parts of a split gives the string back. *)
Lemma join_split (s : jsstring) (sep : Z) : join [sep] (split s sep) = s.
Proof.
  induction s as [|c s IH]; cbn [split]; [reflexivity|].
  destruct (c =? sep) eqn:E.
  - apply Z.eqb_eq in E. subst c.
    rewrite join_cons by apply split_nonempty. now rewrite IH.
  - destruct (split s sep) as [|p ps] eqn:S; [now apply split_nonempty in S|].
    destruct ps as [|q ps].
    + cbn [join] in *. now rewrite IH.
    + rewrite join_cons by discriminate. rewrite join_cons in IH by discriminate.
      rewrite <- IH. reflexivity.
Qed.

(** A list of three or more elements: two heads, a middle, a last. *)
Lemma list_ends {A} (l : list A) :
  (3 <= length l)%nat -> exists a b m z, l = a :: b :: m ++ [z].
Proof.
  destruct l as [|a [|b t]]; cbn [length]; try lia. intros H.
  destruct (exists_last (l := t)) as [m [z ->]].
  - intros ->. cbn [length] in H. lia.
  - now exists a, b, m, z.
Qed.

Lemma parts_access {A} (a b z d : A) (m : list A) :
  nth 0 (a :: b :: m ++ [z]) d = a /\
  nth 1 (a :: b :: m ++ [z]) d = b /\
  slice (a :: b :: m ++ [z]) 2 (-1) = m /\
  nth (length (a :: b :: m ++ [z]) - 1) (a :: b :: m ++ [z]) d = z.
Proof.
  split; [reflexivity|]. split; [reflexivity|]. split.
  - rewrite slice_middle by (cbn [length]; rewrite length_app; cbn [length]; lia).
    cbn [length skipn]. rewrite length_app. cbn [length].
    replace (S (S (length m + 1)) - 3)%nat with (length m) by lia.
    now rewrite firstn_app, firstn_all, Nat.sub_diag, app_nil_r.
  - cbn [length]. rewrite length_app. cbn [length].
    replace (S (S (length m + 1)) - 1)%nat with (S (S (length m))) by lia.
    cbn [nth]. now rewrite app_nth2, Nat.sub_diag by lia.
Qed.

(** A string that starts with [(] and ends with [)] is a content between
    the two markers. *)
Lemma delimited_inv (p : jsstring) :
  startsWith p [40] = true -> endsWith p [41] = true ->
  exists content, p = 40 :: content ++ [41].
Proof.
  rewrite startsWith_one, endsWith_one. intros [t ->] [t' E].
  destruct (exists_last (l := t)) as [m [z ->]].
  - intros ->. destruct t' as [|x [|y t']]; discriminate E.
  - exists m. change (40 :: m ++ [z]) with ((40 :: m) ++ [z]) in E.
    apply app_inj_tail in E. destruct E as [_ ->]. reflexivity.
Qed.

(** What [parsePacket] returns on a delimited content once its parts are
    known. *)
Lemma parse_delimited (content now : jsstring) (a b z : jsstring) (m : list jsstring) :
  split content 44 = a :: b :: m ++ [z] ->
  imei_regex a = true ->
  snd (parsePacket (40 :: content ++ [41]) now) =
  inr {| imei := a;
         command := b;
         commandName :=
           match get COMMAND_TYPES b with
           | Some (VString (c :: n)) => VString (c :: n)
           | Some (VInherited f) => VInherited f
           | _ => VString (lit "Unknown")
           end;
         data := m;
         checksum := z;
         calculatedChecksum :=
           calculateChecksum (substring content 0 (lastIndexOf content 44));
         isValid :=
           str_eqb (calculateChecksum (substring content 0 (lastIndexOf content 44))) z;
         timestamp := now |}.
Proof.
  intros S I. rewrite parsePacket_checks. cbv zeta.
  destruct (delimited content) as (-> & -> & -> & ->). rewrite S.
  destruct (parts_access a b z [] m) as (-> & -> & -> & ->).
  rewrite I. cbn [negb orb].
  replace (length (a :: b :: m ++ [z]) <? 3)%nat with false; [reflexivity|].
  symmetry. apply Nat.ltb_ge. cbn [length]. rewrite length_app. cbn [length]. lia.
Qed.

(** The text the checksum is computed over, when the last part has no
    comma: everything before the last comma. *)
Lemma checksum_text (pre z : jsstring) :
  ~ In 44 z ->
  substring (pre ++ 44 :: z) 0 (lastIndexOf (pre ++ 44 :: z) 44) = pre.
Proof.
  intros H. rewrite lastIndexOf_app by assumption. apply substring_prefix.
Qed.

(** The structure of every packet [parsePacket] returns. *)
Lemma parsed_structure (raw now : jsstring) (pk : packet) :
  snd (parsePacket raw now) = inr pk ->
  trim raw = 40 :: join [44] (imei pk :: command pk :: data pk ++ [checksum pk]) ++ [41] /\
  Spec.imei15 (imei pk) /\
  Forall (fun p => ~ In 44 p) (imei pk :: command pk :: data pk ++ [checksum pk]) /\
  calculatedChecksum pk =
    calculateChecksum (join [44] (imei pk :: command pk :: data pk)) /\
  isValid pk = str_eqb (calculatedChecksum pk) (checksum pk) /\
  timestamp pk = now.
Proof.
  intros P. pose proof P as P0. rewrite parsePacket_checks in P. cbv zeta in P.
  destruct (startsWith (trim raw) [40]) eqn:S; [|discriminate].
  destruct (endsWith (trim raw) [41]) eqn:E; [|discriminate].
  cbn [negb orb] in P.
  destruct (delimited_inv _ S E) as [content T].
  rewrite T, slice_strip in P.
  destruct (Nat.ltb_spec (length (split content 44)) 3) as [|L]; [discriminate|].
  destruct (list_ends _ L) as (a & b & m & z & Sp).
  pose proof (split_no_sep content 44) as NS.
  pose proof (join_split content 44) as JS.
  rewrite Sp in *.
  destruct (parts_access a b z [] m) as (A0 & A1 & A2 & A3).
  rewrite A0, A1, A2, A3 in P.
  destruct (imei_regex a) eqn:I; [|discriminate]. cbn [negb] in P.
  apply inr_inj in P. subst pk.
  cbn [imei command data checksum calculatedChecksum isValid timestamp].
  assert (Hz : ~ In 44 z).
  { rewrite Forall_forall in NS. apply NS. apply in_or_app with (l := a :: b :: m).
    right. now left. }
  assert (C : content = join [44] (a :: b :: m) ++ 44 :: z).
  { rewrite <- JS. change (a :: b :: m ++ [z]) with ((a :: b :: m) ++ [z]).
    now rewrite join_snoc by discriminate. }
  repeat split.
  - now rewrite T, JS.
  - now apply imei_regex_spec.
  - now apply imei_regex_spec.
  - exact NS.
  - rewrite C at 1 2. now rewrite checksum_text.
Qed.

End FrameFacts.

(* ================================================================= *)
(** ** The packet as a record of the frame *)

Module PacketStructure.
Import JS Server JSFacts ChecksumFacts ParserFacts FrameFacts.

(** X1: nothing of the frame is lost in a packet: whenever [parsePacket]
    returns a packet, the trimmed input is [(], the comma-joined IMEI,
    command, data fields and received checksum, then [)]. *)
Theorem packet_reassembles (raw now : jsstring) (pk : packet) :
  snd (parsePacket raw now) = inr pk ->
  trim raw =
  lit "(" ++ join (lit ",") (imei pk :: command pk :: data pk ++ [checksum pk]) ++ lit ")".
Proof.
  intros P. now destruct (parsed_structure raw now pk P) as (T & _).
Qed.

Lemma packet_reassembles_witness :
  trim (Examples.heartbeat ++ [10]) =
  lit "(" ++ join (lit ",")
    (imei Examples.heartbeat_packet :: command Examples.heartbeat_packet
       :: data Examples.heartbeat_packet ++ [checksum Examples.heartbeat_packet])
  ++ lit ")".
Proof.
  apply (packet_reassembles (Examples.heartbeat ++ [10]) Examples.now0).
  reflexivity.
Defined.

(** X2: the validity flag read on the packet alone: the text the
    checksum is computed over (everything before the last comma of the
    content) is the comma-joined IMEI, command and data fields, so a
    packet is valid exactly when its received checksum is the checksum of
    that text. *)
Theorem validity_by_fields (raw now : jsstring) (pk : packet) :
  snd (parsePacket raw now) = inr pk ->
  calculatedChecksum pk =
    calculateChecksum (join (lit ",") (imei pk :: command pk :: data pk)) /\
  (isValid pk = true <->
   checksum pk = calculateChecksum (join (lit ",") (imei pk :: command pk :: data pk))).
Proof.
  intros P. destruct (parsed_structure raw now pk P) as (_ & _ & _ & C & V & _).
  change (lit ",") with [44].
  split; [exact C|]. rewrite V, str_eqb_eq, C. split; intros H; now rewrite H.
Qed.

Lemma validity_by_fields_witness :
  isValid Examples.merged_packet = true <->
  checksum Examples.merged_packet =
  calculateChecksum (join (lit ",")
    (imei Examples.merged_packet :: command Examples.merged_packet
       :: data Examples.merged_packet)).
Proof.
  apply (validity_by_fields Examples.two_frames Examples.now0 Examples.merged_packet).
  reflexivity.
Defined.

(** X3: what every returned packet satisfies: its IMEI is exactly 15
    ASCII digits, no comma occurs in its IMEI, command, data fields or
    checksum, and its timestamp is the clock value of the call. *)
Theorem packet_invariant (raw now : jsstring) (pk : packet) :
  snd (parsePacket raw now) = inr pk ->
  Spec.imei15 (imei pk) /\
  ~ In 44 (command pk) /\
  Forall (fun f => ~ In 44 f) (data pk) /\
  ~ In 44 (checksum pk) /\
  timestamp pk = now.
Proof.
  intros P. destruct (parsed_structure raw now pk P) as (_ & I & F & _ & _ & T).
  apply Forall_inv_tail in F. pose proof (Forall_inv F) as Hc.
  apply Forall_inv_tail, Forall_app in F. destruct F as [Fd Fz].
  apply Forall_inv in Fz. auto.
Qed.

Lemma packet_invariant_witness :
  Spec.imei15 (imei Examples.merged_packet) /\
  ~ In 44 (command Examples.merged_packet) /\
  Forall (fun f => ~ In 44 f) (data Examples.merged_packet) /\
  ~ In 44 (checksum Examples.merged_packet) /\
  timestamp Examples.merged_packet = Examples.now0.
Proof.
  apply (packet_invariant Examples.two_frames Examples.now0 Examples.merged_packet).
  reflexivity.
Defined.

(** X4: a valid packet carries a checksum of exactly four upper-case
    hexadecimal digits: a received checksum of another length, or with a
    lower-case letter, is never valid. *)
Theorem valid_checksum_shape (raw now : jsstring) (pk : packet) :
  snd (parsePacket raw now) = inr pk -> isValid pk = true ->
  length (checksum pk) = 4%nat /\ Forall Spec.isUpperHex (checksum pk).
Proof.
  intros P V. destruct (parsed_structure raw now pk P) as (_ & _ & _ & C & E & _).
  rewrite E in V. apply str_eqb_eq in V. rewrite <- V, C, calculateChecksum_spec.
  split; [reflexivity | apply compute_upperHex].
Qed.

Lemma valid_checksum_shape_witness :
  length (checksum Examples.heartbeat_packet) = 4%nat /\
  Forall Spec.isUpperHex (checksum Examples.heartbeat_packet).
Proof.
  apply (valid_checksum_shape Examples.heartbeat Examples.now0 Examples.heartbeat_packet);
    reflexivity.
Defined.

End PacketStructure.

(* ================================================================= *)
(** ** What the checksum tells apart *)

Module ChecksumProperties.
Import JS Server JSFacts ChecksumFacts.

Lemma sum_app (a b : jsstring) :
  fold_right Z.add 0 (a ++ b) = fold_right Z.add 0 a + fold_right Z.add 0 b.
Proof. induction a as [|c a IH]; cbn [app fold_right]; lia. Qed.

Lemma sum_permutation (s t : jsstring) :
  Permutation s t -> fold_right Z.add 0 s = fold_right Z.add 0 t.
Proof. induction 1; cbn [fold_right]; lia. Qed.

Lemma upperHex_inj (a b : Z) :
  0 <= a < 16 -> 0 <= b < 16 -> Spec.upperHex a = Spec.upperHex b -> a = b.
Proof.
  unfold Spec.upperHex. intros Ha Hb.
  destruct (Z.ltb_spec a 10), (Z.ltb_spec b 10); lia.
Qed.

(** Two texts have the same checksum exactly when their sums of
    character codes agree modulo 65536. *)
Lemma checksum_eq_mod (s t : jsstring) :
  calculateChecksum s = calculateChecksum t <->
  fold_right Z.add 0 s mod 65536 = fold_right Z.add 0 t mod 65536.
Proof.
  rewrite !calculateChecksum_spec. unfold Spec.compute.
  change 65535 with (Z.ones 16). rewrite !Z.land_ones by lia.
  change (2 ^ 16) with 65536.
  set (n := fold_right Z.add 0 s mod 65536).
  set (m := fold_right Z.add 0 t mod 65536).
  assert (Hn : 0 <= n < 65536) by (apply Z.mod_pos_bound; lia).
  assert (Hm : 0 <= m < 65536) by (apply Z.mod_pos_bound; lia).
  split; [|now intros ->].
  intros E.
  assert (E3 : Spec.upperHex (n / 4096) = Spec.upperHex (m / 4096)) by congruence.
  assert (E2 : Spec.upperHex (n / 256 mod 16) = Spec.upperHex (m / 256 mod 16))
    by congruence.
  assert (E1 : Spec.upperHex (n / 16 mod 16) = Spec.upperHex (m / 16 mod 16))
    by congruence.
  assert (E0 : Spec.upperHex (n mod 16) = Spec.upperHex (m mod 16)) by congruence.
  apply upperHex_inj in E3; [|Z.div_mod_to_equations; lia..].
  apply upperHex_inj in E2; [|Z.div_mod_to_equations; lia..].
  apply upperHex_inj in E1; [|Z.div_mod_to_equations; lia..].
  apply upperHex_inj in E0; [|Z.div_mod_to_equations; lia..].
  clear E. Z.div_mod_to_equations. lia.
Qed.

(** X5: the checksum is a faithful print of the 16-bit sum: two texts
    get the same checksum exactly when the sums of their character codes
    agree modulo 65536 (so the four digits lose nothing of the masked
    sum, and nothing else of the text enters them). *)
Theorem checksum_collision_iff (s t : jsstring) :
  calculateChecksum s = calculateChecksum t <->
  (fold_right Z.add 0 s - fold_right Z.add 0 t) mod 65536 = 0.
Proof.
  rewrite checksum_eq_mod. split; intros H; Z.div_mod_to_equations; lia.
Qed.

(** X6: the checksum does not see the order of the characters: any
    rearrangement of a text (two fields exchanged, two digits
    transposed) has the checksum of the text. *)
Theorem checksum_order_blind (s t : jsstring) :
  Permutation s t -> calculateChecksum s = calculateChecksum t.
Proof.
  intros H. apply checksum_eq_mod. now rewrite (sum_permutation s t H).
Qed.

Lemma checksum_order_blind_witness :
  calculateChecksum (lit "123456789012345,BP22,72,91")
  = calculateChecksum (lit "123456789012345,BP22,27,19").
Proof.
  apply checksum_order_blind.
  apply (Permutation_app_head (lit "123456789012345,BP22,")).
  cbn. eapply perm_trans; [apply perm_swap|].
  do 3 apply perm_skip. apply perm_swap.
Defined.

(** X7: the checksum sees every single-character change: replacing one
    character of a text by a different one (both UTF-16 code units)
    changes the checksum. *)
Theorem checksum_detects_substitution (a b : jsstring) (c d : Z) :
  0 <= c < 65536 -> 0 <= d < 65536 -> c <> d ->
  calculateChecksum (a ++ c :: b) <> calculateChecksum (a ++ d :: b).
Proof.
  intros Hc Hd N E. apply checksum_eq_mod in E.
  rewrite !sum_app in E. cbn [fold_right] in E.
  Z.div_mod_to_equations. lia.
Qed.

Lemma checksum_detects_substitution_witness :
  calculateChecksum (lit "123456789012345,BP22,72")
  <> calculateChecksum (lit "123456789012345,BP22,73").
Proof.
  apply (checksum_detects_substitution (lit "123456789012345,BP22,7") [] 50 51); lia.
Defined.

End ChecksumProperties.

(* ================================================================= *)
(** ** Simulator to server, and the server's own replies *)

Module EndToEnd.
Import JS Server JSFacts ChecksumFacts ParserFacts FrameFacts SessionProperties.

Lemma sendPacket_shape (imei command : jsstring) (data : list jsstring) :
  Simulator.sendPacket imei command data =
  40 :: (join [44] (imei :: command :: data)
           ++ 44 :: calculateChecksum (join [44] (imei :: command :: data))) ++ [41].
Proof.
  unfold Simulator.sendPacket. cbv zeta.
  change Simulator.calculateChecksum with calculateChecksum.
  change (lit "(") with [40]. change (lit ",") with [44]. change (lit ")") with [41].
  cbn [app]. now rewrite <- app_assoc.
Qed.

(** What the server's parser makes of a packet of the simulator. *)
Lemma sendPacket_parses (imei command : jsstring) (data : list jsstring) (now : jsstring) :
  Spec.imei15 imei ->
  exists pk,
    snd (parsePacket (Simulator.sendPacket imei command data) now) = inr pk /\
    isValid pk = true /\
    Server.imei pk = imei /\
    (~ In 44 command -> Forall (fun f => ~ In 44 f) data ->
     Server.command pk = command /\ Server.data pk = data).
Proof.
  intros Hi. rewrite sendPacket_shape.
  set (body := join [44] (imei :: command :: data)).
  set (cs := calculateChecksum body).
  assert (Hcs : ~ In 44 cs) by apply calculateChecksum_no_comma.
  assert (B : body = imei ++ 44 :: join [44] (command :: data))
    by (unfold body; now rewrite join_cons by discriminate).
  assert (S : split (body ++ 44 :: cs) 44 =
              imei :: split (join [44] (command :: data)) 44 ++ [cs]).
  { rewrite split_app_sep, (split_nosep cs) by assumption.
    rewrite B, split_app by (now apply imei15_no_comma). reflexivity. }
  destruct (split (join [44] (command :: data)) 44) as [|b tl] eqn:R;
    [now apply split_nonempty in R|].
  cbn [app] in S.
  rewrite (parse_delimited _ now imei b cs tl S) by (now apply imei_regex_spec).
  eexists. split; [reflexivity|].
  cbn [isValid Server.imei Server.command Server.data].
  rewrite checksum_text by assumption. fold cs. rewrite str_eqb_refl.
  repeat split. 
  - rewrite split_join in R; [congruence | discriminate | now constructor].
  - rewrite split_join in R; [congruence | discriminate | now constructor].
Qed.

(** The handler hands on the packet and the decoding of its fields. *)
Lemma on_data_result (p : GT60PacketParser) (arrival now : jsstring) (pk : packet) :
  snd (parsePacket arrival now) = inr pk ->
  handler_result (on_data p arrival now) =
  {| parsed := inr pk;
     commandData := Some (parseCommandData (command pk) (data pk) now) |}.
Proof.
  unfold on_data. destruct (parsePacket arrival now) as [log [e|q]]; cbn [snd].
  - discriminate.
  - intros E. apply inr_inj in E. now subst q.
Qed.





(** X10: the acknowledgment is itself a frame the parser accepts: for
    every 15-digit IMEI it parses as a [BR00] packet (Response to
    command) with no data field and checksum [OK], which is never valid;
    so a handler that receives an acknowledgment answers it with the
    same acknowledgment. *)
Theorem acknowledgment_is_a_frame (imei now : jsstring) :
  Spec.imei15 imei ->
  snd (parsePacket (lit "(" ++ imei ++ lit ",BR00,OK)") now) =
    inr {| Server.imei := imei;
           command := lit "BR00";
           commandName := VString (lit "Response to command");
           data := [];
           checksum := lit "OK";
           calculatedChecksum := calculateChecksum (imei ++ lit ",BR00");
           isValid := false;
           timestamp := now |} /\
  writes (handler_events (on_data parser (lit "(" ++ imei ++ lit ",BR00,OK)") now))
  = [lit "(" ++ imei ++ lit ",BR00,OK)"].
Proof.
  intros Hi.
  assert (Sh : lit "(" ++ imei ++ lit ",BR00,OK)"
               = 40 :: ((imei ++ lit ",BR00") ++ 44 :: lit "OK") ++ [41]).
  { change (lit "(") with [40]. cbn [app]. f_equal. rewrite <- !app_assoc. reflexivity. }
  assert (S : split ((imei ++ lit ",BR00") ++ 44 :: lit "OK") 44
              = imei :: lit "BR00" :: [] ++ [lit "OK"]).
  { rewrite <- app_assoc. change (lit ",BR00" ++ 44 :: lit "OK") with (44 :: lit "BR00,OK").
    rewrite split_app by (now apply imei15_no_comma). reflexivity. }
  assert (P : snd (parsePacket (lit "(" ++ imei ++ lit ",BR00,OK)") now) =
    inr {| Server.imei := imei;
           command := lit "BR00";
           commandName := VString (lit "Response to command");
           data := [];
           checksum := lit "OK";
           calculatedChecksum := calculateChecksum (imei ++ lit ",BR00");
           isValid := false;
           timestamp := now |}).
  { rewrite Sh, (parse_delimited _ now imei (lit "BR00") (lit "OK") [] S)
      by (now apply imei_regex_spec).
    rewrite checksum_text by (vm_compute; intuition discriminate).
    f_equal. f_equal. rewrite calculateChecksum_spec. unfold Spec.compute.
    change (lit "OK") with [79; 75]. cbn [str_eqb]. now rewrite !andb_false_r. }
  split; [exact P|]. now rewrite on_data_writes, P.
Qed.

Lemma acknowledgment_is_a_frame_witness :
  writes (handler_events (on_data parser (lit "(123456789012345,BR00,OK)") Examples.now0))
  = [lit "(123456789012345,BR00,OK)"].
Proof.
  destruct (acknowledgment_is_a_frame Examples.imei0 Examples.now0) as [_ W].
  - split; [reflexivity|]. repeat constructor; vm_compute; discriminate.
  - exact W.
Defined.

Lemma session_cons (p : GT60PacketParser) (arrival now : jsstring)
    (rest : list (jsstring * jsstring)) :
  snd (session p ((arrival, now) :: rest)) =
  (handler_events (on_data p arrival now), handler_result (on_data p arrival now))
    :: snd (session p rest).
Proof.
  cbn [session]. pose proof (on_data_parsed p arrival now) as [_ St].
  destruct (on_data p arrival now) as [[p1 evs] r].
  cbn [handler_state handler_events handler_result fst snd] in *. subst p1.
  now destruct (session p rest).
Qed.

(** X11: over a whole connection, the bytes written on the socket are
    the acknowledgments of the packets handed on, one for each, in the
    order of the arrivals; nothing else is ever written. *)
Theorem session_acknowledgments (p : GT60PacketParser)
    (arrivals : list (jsstring * jsstring)) :
  writes (Observe.all_events (snd (session p arrivals))) =
  map (fun pk => lit "(" ++ imei pk ++ lit ",BR00,OK)")
      (packets (snd (session p arrivals))).
Proof.
  induction arrivals as [|[arrival now] rest IH]; [reflexivity|].
  rewrite session_cons. unfold Observe.all_events in *.
  cbn [flat_map packets fst snd]. fold (packets (snd (session p rest))).
  rewrite writes_app, map_app, IH, on_data_writes. f_equal.
  destruct (on_data_parsed p arrival now) as [-> _].
  now destruct (snd (parsePacket arrival now)).
Qed.

End EndToEnd.

(* ================================================================= *)
(** ** The decoders at their edges *)

Module DecoderEdges.
Import JS Server JSFacts ParserFacts DecoderProperties.

(** X12: a coordinate with no digit left for the degrees decodes to
    [NaN]: whenever the decimal point is absent or sits at index 2 or
    less (as in [16.7845], [5.5], [.5] or [3116]), the degrees are read
    from the empty string, whatever the hemisphere. *)
Theorem coordinate_without_degrees (coord hemisphere : jsstring) :
  coord <> [] -> hemisphere <> [] -> indexOf coord 46 <= 2 ->
  parseCoordinate (Some coord) (Some hemisphere) = NaN.
Proof.
  intros Hc Hh I. rewrite parseCoordinate_decode by assumption.
  unfold Spec.decode.
  replace (Z.to_nat (indexOf coord 46 - 2)) with 0%nat by lia.
  cbn [firstn skipn]. change (parseFloat []) with NaN.
  unfold add, NaN.
  destruct (div (parseFloat coord) (of_Z 60));
    destruct (str_eqb hemisphere (lit "S") || str_eqb hemisphere (lit "W"));
    reflexivity.
Qed.

Lemma coordinate_without_degrees_witness :
  parseCoordinate (Some (lit "16.7845")) (Some (lit "N")) = NaN.
Proof.
  apply coordinate_without_degrees; [discriminate | discriminate | vm_compute; discriminate].
Defined.

(** X13: a position report is decoded from 10 fields on, but 11 are
    read: with fewer than 10 fields the payload is the raw fallback, and
    with exactly 10 the dilution of precision (field 10) is missing and
    comes out as 0. *)
Theorem position_field_count (data : list jsstring) :
  (length data <= 10)%nat ->
  ((length data < 10)%nat /\ parsePositionData data = RawData data) \/
  (length data = 10%nat /\
   exists gpsFix latitude longitude speed course altitude satellites,
     parsePositionData data =
     PositionData (idx data 0) gpsFix latitude longitude speed course altitude
                  satellites zero).
Proof.
  intros L. unfold parsePositionData.
  destruct (Nat.ltb_spec (length data) 10) as [H|H]; [left; now split|].
  right. split; [lia|]. do 7 eexists.
  replace (idx data 10) with (@None jsstring); [reflexivity|].
  symmetry. apply nth_error_None. lia.
Qed.

Lemma position_field_count_witness :
  exists gpsFix latitude longitude speed course altitude satellites,
    parsePositionData (firstn 10 Examples.position_fields) =
    PositionData (Some (lit "250101120000")) gpsFix latitude longitude speed course
                 altitude satellites zero.
Proof.
  destruct (position_field_count (firstn 10 Examples.position_fields)) as [[H _]|[_ H]].
  - vm_compute. apply le_n.
  - exfalso. vm_compute in H. lia.
  - exact H.
Defined.

Lemma or_zero_defined (x : number) :
  or_zero x <> NaN /\ or_zero x <> S754_zero true.
Proof. destruct x as [[|]| | |]; split; discriminate. Qed.

(** X14: every number a decoder reads in place with [parseInt] or
    [parseFloat] is defined: for every command and field list, none of
    them is [NaN] and none is the negative zero (a failed parse and
    both zeros all become [+0]). *)
Theorem direct_numbers_defined (command : jsstring) (data : list jsstring)
    (now : jsstring) :
  Forall (fun x => x <> NaN /\ x <> S754_zero true)
         (Observe.direct_numbers (parseCommandData command data now)).
Proof.
  unfold parseCommandData, parseLoginData, parsePositionData, parseAlarmData,
    parseGPSData, parseLBSData, parseStepData, parseHeartRateData.
  repeat match goal with
         | |- context [if ?c then _ else _] => destruct c
         end;
    cbn [Observe.direct_numbers];
    repeat (apply Forall_cons; [apply or_zero_defined|]); apply Forall_nil.
Qed.

Lemma or_default_nonempty (v : option jsstring) (d : jsstring) :
  d <> [] -> or_default v d <> [].
Proof. destruct v as [[|c s]|]; cbn; auto; discriminate. Qed.

(** X15: no defaulted string of a payload is empty: a missing or empty
    field becomes [Unknown] (or the clock value, itself not empty, for
    the measure time of a heart rate). *)
Theorem defaulted_strings_nonempty (command : jsstring) (data : list jsstring)
    (now : jsstring) :
  now <> [] ->
  Forall (fun s => s <> []) (Observe.defaulted_strings (parseCommandData command data now)).
Proof.
  intros N.
  unfold parseCommandData, parseLoginData, parsePositionData, parseAlarmData,
    parseGPSData, parseLBSData, parseStepData, parseHeartRateData.
  repeat match goal with
         | |- context [if ?c then _ else _] => destruct c
         end;
    cbn [Observe.defaulted_strings];
    repeat (apply Forall_cons; [apply or_default_nonempty; (assumption || discriminate)|]);
    apply Forall_nil.
Qed.

Lemma defaulted_strings_nonempty_witness :
  Forall (fun s => s <> [])
    (Observe.defaulted_strings (parseCommandData (lit "BP11") [[]; lit "01"] Examples.now0)).
Proof. apply defaulted_strings_nonempty. discriminate. Defined.

Lemma slice_from_skipn {A} (l : list A) (n : nat) :
  slice_from l (Z.of_nat n) = skipn n l.
Proof.
  unfold slice_from, slice, relIndex.
  destruct (Z.ltb_spec (Z.of_nat n) 0); [lia|].
  destruct (Z.ltb_spec (Z.of_nat (length l)) 0); [lia|].
  destruct (Nat.le_gt_cases n (length l)).
  - replace (Z.to_nat (Z.min (Z.of_nat n) _)) with n by lia.
    apply firstn_all2. rewrite length_skipn. lia.
  - replace (Z.to_nat (Z.min (Z.of_nat n) _)) with (length l) by lia.
    rewrite !skipn_all2 by lia. apply firstn_nil.
Qed.

(** X16: the location of an alarm is every field after the second, for
    any number of fields (none when there are two or fewer: the length
    test of the decoder and [slice(2)] agree); the alarm type is the
    first field, or [Unknown], and the time is the second, possibly
    [undefined]. *)
Theorem alarm_location (data : list jsstring) :
  parseAlarmData data =
    AlarmData (or_default (idx data 0) (lit "Unknown")) (idx data 1) (skipn 2 data) /\
  length (skipn 2 data) = (length data - 2)%nat.
Proof.
  split; [|apply length_skipn].
  unfold parseAlarmData. f_equal.
  destruct (Nat.ltb_spec 2 (length data)).
  - apply (slice_from_skipn data 2).
  - symmetry. apply skipn_all2. lia.
Qed.

End DecoderEdges.

(* ================================================================= *)
(** ** The simulator's reports, as the server decodes them *)

Module ReportProperties.
Import JS Server JSFacts ParserFacts FrameFacts EndToEnd.

Lemma replace_keep (c : Z) (s : jsstring) :
  c <> 45 -> c <> 58 ->
  Reports.replace_dash_colon (c :: s) = c :: Reports.replace_dash_colon s.
Proof.
  intros A B. unfold Reports.replace_dash_colon. cbn [filter].
  destruct (Z.eqb_spec c 45); [contradiction|].
  destruct (Z.eqb_spec c 58); [contradiction|]. reflexivity.
Qed.

Lemma replace_drop (s : jsstring) :
  Reports.replace_dash_colon (45 :: s) = Reports.replace_dash_colon s /\
  Reports.replace_dash_colon (58 :: s) = Reports.replace_dash_colon s.
Proof. split; reflexivity. Qed.

(** X17: the date and time the simulator puts in its reports. For a
    clock string [YYYY-MM-DDTHH:MM:SS.sssZ], removing [-] and [:] leaves
    the [T] in place, so characters 2 to 13 are the two last digits of the
    year, the month, the day, the letter [T], the hour, the minute and
    the first digit of the seconds: twelve characters, not the twelve
    digits YYMMDDHHMMSS. *)
Theorem simulator_datetime
    (y1 y2 y3 y4 mo1 mo2 d1 d2 h1 h2 mi1 mi2 s1 s2 f1 f2 f3 : Z) :
  Forall (fun c => 48 <= c <= 57)
         [y1; y2; y3; y4; mo1; mo2; d1; d2; h1; h2; mi1; mi2; s1; s2; f1; f2; f3] ->
  Reports.datetime
    (Reports.iso_string y1 y2 y3 y4 mo1 mo2 d1 d2 h1 h2 mi1 mi2 s1 s2 f1 f2 f3)
  = [y3; y4; mo1; mo2; d1; d2; 84; h1; h2; mi1; mi2; s1].
Proof.
  intros D.
  repeat match type of D with
         | Forall _ (_ :: _) =>
             let H := fresh "H" in
             pose proof (Forall_inv D) as H; cbv beta in H;
             apply Forall_inv_tail in D
         end.
  unfold Reports.datetime, Reports.iso_string.
  destruct (replace_drop []) as [_ _].
  repeat first [ rewrite replace_keep by lia
               | rewrite (proj1 (replace_drop _))
               | rewrite (proj2 (replace_drop _)) ].
  reflexivity.
Qed.

Lemma simulator_datetime_witness :
  Reports.datetime (lit "2025-01-01T12:34:56.789Z") = lit "250101T12345".
Proof.
  apply (simulator_datetime 50 48 50 53 48 49 48 49 49 50 51 52 53 54 55 56 57).
  repeat constructor; lia.
Defined.

Lemma In_substring (x : Z) (s : jsstring) (a b : Z) :
  In x (substring s a b) -> In x s.
Proof.
  unfold substring. intros H.
  set (n := Z.to_nat (Z.max _ _ - Z.min _ _)) in H.
  set (k := Z.to_nat (Z.min _ _)) in H.
  rewrite <- (firstn_skipn k s). apply in_or_app. right.
  rewrite <- (firstn_skipn n (skipn k s)). apply in_or_app. now left.
Qed.

Lemma datetime_no_comma (iso : jsstring) :
  ~ In 44 iso -> ~ In 44 (Reports.datetime iso).
Proof.
  intros H I. apply H. unfold Reports.datetime in I.
  apply In_substring in I. unfold Reports.replace_dash_colon in I.
  now apply filter_In in I.
Qed.

(** The heart rates the simulator draws, printed and read back. *)
Lemma heart_rate_read_back (heartRate : Z) :
  65 <= heartRate <= 94 ->
  or_zero (parseInt (Reports.toString10 heartRate)) = of_Z heartRate /\
  ~ In 44 (Reports.toString10 heartRate).
Proof.
  intros R.
  assert (I : In heartRate (map Z.of_nat (seq 65 30))).
  { apply in_map_iff. exists (Z.to_nat heartRate). split; [lia|]. apply in_seq. lia. }
  cbn [seq map] in I.
  repeat (destruct I as [<-|I];
          [split; [vm_compute; reflexivity | vm_compute; intuition discriminate]|]).
  destruct I.
Qed.

(** X18: a heart rate survives the trip: for every rate the simulator
    can draw (65 to 94) and every clock string without a comma, the
    server decodes the packet of [sendHeartRateData] to that rate, from a
    valid packet; the measure time is the simulator's date and time (the
    server's clock when that string is empty). *)
Theorem simulator_heart_rate (heartRate : Z) (iso now : jsstring) :
  65 <= heartRate <= 94 -> ~ In 44 iso ->
  exists pk,
    handler_result (on_data parser (Reports.sendHeartRateData heartRate iso) now) =
      {| parsed := inr pk;
         commandData :=
           Some (HeartRateData (of_Z heartRate)
                               (or_default (Some (Reports.datetime iso)) now)) |} /\
    isValid pk = true.
Proof.
  intros R C. destruct (heart_rate_read_back heartRate R) as [V N].
  pose proof (datetime_no_comma iso C) as Dn.
  unfold Reports.sendHeartRateData.
  destruct (sendPacket_parses Reports.imei (lit "BP22")
              [Reports.toString10 heartRate; Reports.datetime iso] now)
    as (pk & P & Va & _ & F).
  { split; [reflexivity|]. repeat constructor; vm_compute; discriminate. }
  destruct F as [Cm Da].
  { vm_compute. intuition discriminate. }
  { repeat constructor; assumption. }
  exists pk. rewrite (on_data_result parser _ now pk P), Cm, Da.
  split; [|exact Va].
  change (parseCommandData (lit "BP22")
            [Reports.toString10 heartRate; Reports.datetime iso] now)
    with (HeartRateData (or_zero (parseInt (Reports.toString10 heartRate)))
                        (or_default (Some (Reports.datetime iso)) now)).
  now rewrite V.
Qed.

Lemma simulator_heart_rate_witness :
  commandData (handler_result
    (on_data parser (Reports.sendHeartRateData 72 (lit "2025-01-01T12:34:56.789Z"))
       Examples.now0))
  = Some (HeartRateData (of_Z 72) (lit "250101T12345")).
Proof.
  destruct (simulator_heart_rate 72 (lit "2025-01-01T12:34:56.789Z") Examples.now0)
    as (pk & H & _).
  - lia.
  - vm_compute. intuition discriminate.
  - now rewrite H.
Defined.

Ltac no_comma := first [ assumption | vm_compute; intuition discriminate ].
Ltac all_no_comma := repeat (apply Forall_cons; [no_comma|]); apply Forall_nil.

(** X19: the other reports of the simulator, as the server decodes them,
    for every clock string without a comma: each one reaches the decoder
    in a valid packet; the login gives the device type, firmware and
    protocol sent; the heartbeat (whose command has no decoder) gives
    the raw clock string; the position report gives fix [Valid], a
    latitude between 31.27974 and 31.27976, a longitude between 121.37974
    and 121.37976, speed 45.5, course 180, altitude 150, 12 satellites
    and dilution 0.8; the alarm gives type [SOS], the date and time, and
    the five position fields as its location. *)
Theorem simulator_reports_decoded (iso now : jsstring) :
  ~ In 44 iso ->
  let decoded packet := commandData (handler_result (on_data parser packet now)) in
  let valid packet :=
    exists pk, snd (parsePacket packet now) = inr pk /\ isValid pk = true in
  (valid Reports.sendLoginPacket /\
   decoded Reports.sendLoginPacket
   = Some (LoginData (lit "GT60") (lit "V1.0") (lit "1.0"))) /\
  (valid (Reports.sendHeartbeat iso) /\
   decoded (Reports.sendHeartbeat iso) = Some (RawData [iso])) /\
  (valid (Reports.sendPositionReport iso) /\
   exists latitude longitude,
     decoded (Reports.sendPositionReport iso)
     = Some (PositionData (Some (Reports.datetime iso)) (lit "Valid")
               latitude longitude (parseFloat (lit "45.5")) (of_Z 180) (of_Z 150)
               (of_Z 12) (parseFloat (lit "0.8"))) /\
     Spec.between (parseFloat (lit "31.27974")) latitude (parseFloat (lit "31.27976")) /\
     Spec.between (parseFloat (lit "121.37974")) longitude
                  (parseFloat (lit "121.37976"))) /\
  (valid (Reports.sendAlarmReport iso) /\
   decoded (Reports.sendAlarmReport iso)
   = Some (AlarmData (lit "SOS") (Some (Reports.datetime iso))
             [lit "A"; lit "3116.7845"; lit "N"; lit "12122.7845"; lit "E"])).
Proof.
  intros C. cbv zeta.
  pose proof (datetime_no_comma iso C) as Dn.
  set (dt := Reports.datetime iso) in *.
  assert (Hi : Spec.imei15 Reports.imei)
    by (split; [reflexivity | repeat constructor; vm_compute; discriminate]).
  assert (deliver : forall command data,
             ~ In 44 command -> Forall (fun f => ~ In 44 f) data ->
             (exists pk, snd (parsePacket (Simulator.sendPacket Reports.imei command data)
                                now) = inr pk /\ isValid pk = true) /\
             commandData (handler_result
               (on_data parser (Simulator.sendPacket Reports.imei command data) now))
             = Some (parseCommandData command data now)).
  { intros command data Hc Hd.
    destruct (sendPacket_parses Reports.imei command data now Hi) as (pk & P & V & _ & F).
    destruct (F Hc Hd) as [Cm Da]. split; [exists pk; split; assumption|].
    rewrite (on_data_result parser _ now pk P), Cm, Da. reflexivity. }
  unfold Reports.sendLoginPacket, Reports.sendHeartbeat, Reports.sendPositionReport,
    Reports.sendAlarmReport. fold dt.
  destruct (deliver (lit "BP01") [lit "GT60"; lit "V1.0"; lit "1.0"])
    as [V1 D1]; [no_comma | all_no_comma |].
  destruct (deliver (lit "BP00") [iso]) as [V2 D2]; [no_comma | all_no_comma |].
  destruct (deliver (lit "BP02")
              [ dt; lit "A"; lit "3116.7845"; lit "N"; lit "12122.7845";
                lit "E"; lit "045.5"; lit "180"; lit "150"; lit "12"; lit "0.8" ])
    as [V3 D3]; [no_comma | all_no_comma |].
  destruct (deliver (lit "BP03")
              [ lit "SOS"; dt; lit "A"; lit "3116.7845"; lit "N";
                lit "12122.7845"; lit "E" ])
    as [V4 D4]; [no_comma | all_no_comma |].
  rewrite D1, D2, D3, D4.
  split; [split; [exact V1 | reflexivity]|].
  split; [split; [exact V2 | reflexivity]|].
  split; [|split; [exact V4 | reflexivity]].
  split; [exact V3|]. do 2 eexists.
  split; [reflexivity|]. split; vm_compute; auto.
Qed.

Lemma simulator_reports_decoded_witness :
  commandData (handler_result
    (on_data parser (Reports.sendAlarmReport (lit "2025-01-01T12:34:56.789Z"))
       Examples.now0))
  = Some (AlarmData (lit "SOS") (Some (lit "250101T12345"))
            [lit "A"; lit "3116.7845"; lit "N"; lit "12122.7845"; lit "E"]).
Proof.
  destruct (simulator_reports_decoded (lit "2025-01-01T12:34:56.789Z") Examples.now0)
    as (_ & _ & _ & _ & H).
  - vm_compute. intuition discriminate.
  - exact H.
Defined.

End ReportProperties.

(* ================================================================= *)
(** ** Blank arrivals and registered commands *)

Module RegistryProperties.
Import JS Server JSFacts ParserFacts SessionProperties DecoderProperties.

(** X20: an arrival made of white space only (the empty arrival
    included) fails with the missing start/end markers message, keeps the
    arrival as its raw data, and is not acknowledged. *)
Theorem blank_arrival (p : GT60PacketParser) (raw now : jsstring) :
  blank raw ->
  snd (parsePacket raw now) =
    inl {| error := MissingDelimiters; rawData := raw; failure_timestamp := now |} /\
  writes (handler_events (on_data p raw now)) = [].
Proof.
  intros B.
  assert (F : snd (parsePacket raw now) =
              inl {| error := MissingDelimiters; rawData := raw;
                     failure_timestamp := now |}).
  { apply unmarked_arrival. left. intros I.
    unfold blank in B. rewrite forallb_forall in B. apply B in I. discriminate I. }
  split; [exact F|]. rewrite on_data_writes, F. reflexivity.
Qed.

Lemma blank_arrival_witness :
  writes (handler_events (on_data parser [13; 10] Examples.now0)) = [].
Proof.
  destruct (blank_arrival parser [13; 10] Examples.now0) as [_ W].
  - reflexivity.
  - exact W.
Defined.

Lemma assoc_In (key v : jsstring) (o : list (jsstring * jsstring)) :
  assoc key o = Some v -> exists k, In (k, v) o.
Proof.
  induction o as [|[k0 v0] o IH]; cbn [assoc]; [discriminate|].
  destruct (str_eqb k0 key).
  - intros E. exists k0. left. congruence.
  - intros E. destruct (IH E) as [k I]. exists k. now right.
Qed.

Lemma names_nonempty (k v : jsstring) : In (k, v) COMMAND_TYPES -> v <> [].
Proof.
  intros I. unfold COMMAND_TYPES in I. cbn [In] in I.
  repeat (destruct I as [I|I]; [apply (f_equal snd) in I; cbn [snd] in I;
                                rewrite <- I; discriminate|]).
  destruct I.
Qed.

Lemma not_decoded (command : jsstring) (data : list jsstring) (now : jsstring) :
  existsb (str_eqb command) Observe.decoded_commands = false ->
  parseCommandData command data now = RawData data.
Proof.
  unfold Observe.decoded_commands. cbn [existsb]. intros H.
  repeat (apply orb_false_iff in H; destruct H as [?E H]).
  unfold parseCommandData. now rewrite E, E0, E1, E2, E3, E4, E5.
Qed.

(** X21: a registered command gets its display name and no warning:
    whenever the command of a returned packet is a key of [COMMAND_TYPES],
    the packet's [commandName] is the name registered for it and
    [parsePacket] flags nothing; and when it is not one of the seven
    commands with a decoder, its data decode to the raw fallback. *)
Theorem registered_command (raw now now' : jsstring) (pk : packet) (name : jsstring) :
  snd (parsePacket raw now) = inr pk ->
  assoc (command pk) COMMAND_TYPES = Some name ->
  commandName pk = VString name /\
  warnings (fst (parsePacket raw now)) = [] /\
  (existsb (str_eqb (command pk)) Observe.decoded_commands = false ->
   parseCommandData (command pk) (data pk) now' = RawData (data pk)).
Proof.
  intros P A.
  destruct (assoc_In _ _ _ A) as [k I]. apply names_nonempty in I.
  destruct name as [|c n]; [congruence|].
  assert (G : get COMMAND_TYPES (command pk) = Some (VString (c :: n)))
    by (unfold get; now rewrite A).
  split; [|split].
  - rewrite parsePacket_checks in P. cbv zeta in P.
    destruct (negb _ || negb _); [discriminate|].
    destruct (length _ <? 3)%nat; [discriminate|].
    destruct (negb (imei_regex _)); [discriminate|].
    apply inr_inj in P. subst pk. cbn [commandName command] in *. now rewrite G.
  - rewrite (parsePacket_warnings raw now pk P), G. reflexivity.
  - apply not_decoded.
Qed.

Lemma registered_command_witness :
  commandName Examples.merged_packet = VString (lit "Heartbeat") /\
  parseCommandData (command Examples.merged_packet) (data Examples.merged_packet)
    Examples.now0 = RawData (data Examples.merged_packet).
Proof.
  destruct (registered_command Examples.two_frames Examples.now0 Examples.now0
              Examples.merged_packet (lit "Heartbeat")) as (N & _ & D).
  - reflexivity.
  - reflexivity.
  - split; [exact N | apply D; reflexivity].
Defined.

End RegistryProperties.
